(** * run_pipeline.py: the export/download/archive orchestrator

    A shallow embedding of [scripts/run_pipeline.py].  The script is one
    linear sequence of six steps.  Everything it does is an effect on the
    outside world (two subprocesses, the Drive API, the wall clock, the
    local file system), so the embedding is a state-and-exception monad
    over an explicit [World]; what the outside world answers is collected
    in an [Env] record of oracles.

    Modelling conventions:
    - the wall clock is an integer number of seconds; it advances only
      inside blocking calls (a Drive query, [time.sleep]);
    - the local file system is the finite map from the directories the
      script addresses to their entries (name to node); the path
      [os.path.join(dir, name)] of an entry is the pair [(dir, name)],
      entry names being single path components.  This is the joined
      path for the names [os.listdir] returns and for the Drive titles
      that are plain file names ([plain_title]); the statements about
      downloaded files are made for such titles, a title that is empty
      or holds a separator or a dot component being outside of them;
    - [os.rename] follows the rules Python documents for Unix, and may in
      addition be refused by the environment (permissions, cross-device
      moves); the rule Python documents for Windows, where the call
      never replaces an existing destination, is such a refusal
      ([refusal_rule]);
    - a Drive query always answers: the error of the API that a failed
      query raises, and that would end the run, is left out;
    - [os.makedirs] always succeeds: the keys of the disk are
      directories, a regular file in the place of a directory is not
      represented;
    - the clock is read in step 2 only; the timestamp of step 5 is given
      by the environment;
    - [print] calls are not modelled. *)

From Stdlib Require Import ZArith String Ascii List.
From Stdlib Require Import DecimalString DecimalNat DecimalFacts.
From stdpp Require Import gmap strings list fin_maps.

Local Open Scope string_scope.
Local Open Scope list_scope.

(** ** CONFIG *)

Definition EXPORT_SCRIPT : string := "scripts/01_export_s1_gee.py".
Definition PROCESS_SCRIPT : string := "scripts/02_process_s1_local.py".
Definition EXPORT_FOLDER : string := "SpaceApps_SAR".
Definition LOCAL_EXPORTS : string := "outputs/gee/".
Definition LOCAL_PROCESSED : string := "outputs/processed/".
Definition PLOTS : string := "outputs/plots/".
Definition FOLDER_MIME : string := "application/vnd.google-apps.folder".
Definition SUMMARY_NAME : string := "SUMMARY.txt".

(** The two timing constants are kept as parameters of the model, so that
    statements can range over poll intervals and windows; [source_timing]
    is the value the script hardcodes. *)
Record Timing := { WAIT_TIME : Z; MAX_WAIT : Z }.

Definition source_timing : Timing := {| WAIT_TIME := 300; MAX_WAIT := 7200 |}.

(** ** Data *)

(** One object of the Drive, with the fields the two queries and the
    download look at.  [content] is what [GetContentFile] obtains; [None]
    stands for an object whose download raises. *)
Record DriveItem := {
  item_id : string;
  title : string;
  mimeType : string;
  trashed : bool;
  parents : list string;
  content : option string
}.

(** A node of the local file system.  A sub-directory is summarised by
    the names it holds: the script only ever moves it as a whole. *)
Inductive node :=
  | File (data : string)
  | Folder (items : list string).

Abbreviation Dir := (gmap string node).
Abbreviation FS := (gmap string (gmap string node)).
Abbreviation Path := (string * string)%type.

Inductive errno := ENOENT | EACCES | EISDIR | ENOTDIR | ENOTEMPTY.

(** The exceptions that can leave the script.  The specification's names:
    [FolderNotFound] is its ContainerNotFoundError, [TimeoutError] its
    ExportTimeoutError, [DownloadError] its DownloadError,
    [CalledProcessError] its ProcessingFailure (for the second script),
    [RenameError] its RelocationError. *)
Inductive exn :=
  | CalledProcessError (script : string)
  | AuthError
  | FolderNotFound (folder_name : string)
  | TimeoutError
  | ValueError
  | DownloadError (file_name : string)
  | RenameError (code : errno) (src dst : Path)
  | OpenError (code : errno) (p : Path).

(** What the script does to the outside, in order. *)
Inductive Event :=
  | EvSubprocess (script : string)
  | EvAuth
  | EvFolderQuery (folder_name : string)
  | EvChildrenQuery (folder_id : string)
  | EvSleep (seconds : Z)
  | EvMakedirs (path : string)
  | EvDownload (file_name : string)
  | EvRename (src dst : Path)
  | EvWrite (p : Path).

(** ** The environment and the world *)

Record Env := {
  (* subprocess.run(["python", EXPORT_SCRIPT], check=True): exit status
     zero or not, and the disk the child leaves behind *)
  export_script : FS -> bool * FS;
  process_script : FS -> bool * FS;
  (* gauth.LocalWebserverAuth() *)
  auth_ok : bool;
  (* the Drive as the n-th ListFile(...).GetList() of the run sees it *)
  drive_at : nat -> list DriveItem;
  (* seconds the n-th GetList takes *)
  query_delay : nat -> N;
  (* seconds a sleep lasts beyond the requested ones; indexed by the
     number of queries made before it *)
  oversleep : nat -> N;
  (* os.rename refused by the operating system for a reason outside the
     node kinds (permission, cross-device, ...) *)
  rename_refused : FS -> Path -> Path -> bool;
  (* datetime.now().strftime("%Y%m%d_%H%M") as read in step 5 *)
  timestamp : string
}.

Record World := {
  clock : Z;
  disk : FS;
  queries : nat;
  trace : list Event
}.

Definition emit (e : Event) (w : World) : World :=
  {| clock := clock w; disk := disk w; queries := queries w;
     trace := trace w ++ [e] |}.

Definition set_disk (d : FS) (w : World) : World :=
  {| clock := clock w; disk := d; queries := queries w; trace := trace w |}.

Definition advance (dt : Z) (w : World) : World :=
  {| clock := (clock w + dt)%Z; disk := disk w; queries := queries w;
     trace := trace w |}.

Definition count_query (w : World) : World :=
  {| clock := clock w; disk := disk w; queries := S (queries w);
     trace := trace w |}.

(** ** The monad: state, exceptions, and fuel for the one loop *)

Inductive outcome (A : Type) :=
  | Ok (a : A)
  | Raise (e : exn)
  | OutOfFuel.
Arguments Ok {A} a.
Arguments Raise {A} e.
Arguments OutOfFuel {A}.

Definition M (A : Type) : Type := World -> outcome A * World.

Definition ret {A} (a : A) : M A := fun w => (Ok a, w).

Definition raise {A} (e : exn) : M A := fun w => (Raise e, w).

Definition bind {A B} (m : M A) (k : A -> M B) : M B :=
  fun w =>
    match m w with
    | (Ok a, w') => k a w'
    | (Raise e, w') => (Raise e, w')
    | (OutOfFuel, w') => (OutOfFuel, w')
    end.

Notation "'let*' x ':=' m 'in' k" := (bind m (fun x => k))
  (at level 10, x pattern, m at level 100, k at level 200).
Notation "m '>>' k" := (bind m (fun _ => k))
  (at level 100, k at level 200, right associativity).

Definition log (e : Event) : M unit := fun w => (Ok tt, emit e w).

(** [for x in xs: body(x)] *)
Fixpoint for_each {A} (xs : list A) (body : A -> M unit) : M unit :=
  match xs with
  | [] => ret tt
  | x :: rest => body x >> for_each rest body
  end.

(** ** Pure helpers *)

(** [os.path.join(a, b)] for two arguments (posixpath). *)
Definition ends_with_slash (s : string) : bool :=
  match String.length s with
  | O => false
  | S n => match String.get n s with
           | Some c => Ascii.eqb c "/"
           | None => false
           end
  end.

Definition path_join (a b : string) : string :=
  if String.prefix "/" b then b
  else if (String.length a =? 0)%nat || ends_with_slash a then a +:+ b
  else a +:+ "/" +:+ b.

(** The entry [name] of the directory [dir]: [os.path.join(dir, name)]. *)
Definition entry (dir name : string) : Path := (dir, name).

Definition lookup_path (d : FS) (p : Path) : option node :=
  match d !! p.1 with
  | Some dir => dir !! p.2
  | None => None
  end.

(** [str(n)] for a length. *)
Definition str_of_nat (n : nat) : string :=
  NilZero.string_of_uint (Nat.to_uint n).

(** The query
    [title = '<folder_name>' and mimeType = '<folder mime>' and trashed=false]. *)
Definition folder_query (folder_name : string) (drive : list DriveItem)
  : list DriveItem :=
  filter (fun it => title it = folder_name ∧ mimeType it = FOLDER_MIME
                    ∧ trashed it = false) drive.

(** The query ['<folder_id>' in parents and trashed=false]. *)
Definition children_query (folder_id : string) (drive : list DriveItem)
  : list DriveItem :=
  filter (fun it => folder_id ∈ parents it ∧ trashed it = false) drive.

(** [os.rename(src, dst)] by node kinds, as documented for Unix: a file
    replaces a file, a directory replaces an empty directory, the mixed
    cases and a non-empty destination directory are errors. *)
Definition rename_check (src : node) (dst : option node) : option errno :=
  match src, dst with
  | _, None => None
  | File _, Some (File _) => None
  | File _, Some (Folder _) => Some EISDIR
  | Folder _, Some (File _) => Some ENOTDIR
  | Folder _, Some (Folder []) => None
  | Folder _, Some (Folder (_ :: _)) => Some ENOTEMPTY
  end.

Definition remove_entry (p : Path) (d : FS) : FS := alter (delete p.2) p.1 d.

Definition place_entry (p : Path) (n : node) (d : FS) : FS :=
  alter (insert p.2 n) p.1 d.

Definition nl : string := String (ascii_of_nat 10) EmptyString.

(** The eight [f.write] calls of step 6, one line each. *)
Definition summary_lines (stamp : string) (n_files : nat) : list string :=
  [ "SAR Tren Maya Analysis - Pipeline Run";
    "Timestamp: " +:+ stamp;
    "Files processed: " +:+ str_of_nat n_files;
    "Steps:";
    " 1) Exported from GEE";
    " 2) Downloaded from Drive";
    " 3) Processed locally (filters, time-series, change maps)";
    " 4) Stored in outputs folder" ].

Definition summary_text (stamp : string) (n_files : nat) : string :=
  String.concat "" (map (fun line => line +:+ nl) (summary_lines stamp n_files)).

(** ** The primitives the script calls *)

Section Pipeline.

Variable env : Env.
Variable tm : Timing.

(** [subprocess.run(["python", script], check=True)] *)
Definition subprocess_run (script : string) (child : FS -> bool * FS) : M unit :=
  fun w =>
    let w1 := set_disk (child (disk w)).2 (emit (EvSubprocess script) w) in
    if (child (disk w)).1 then (Ok tt, w1)
    else (Raise (CalledProcessError script), w1).

(** [GoogleAuth(); LocalWebserverAuth(); GoogleDrive(gauth)] *)
Definition authenticate : M unit :=
  fun w =>
    if auth_ok env then (Ok tt, emit EvAuth w)
    else (Raise AuthError, emit EvAuth w).

(** [drive.ListFile({'q': ...}).GetList()], for a query that the Drive
    answers. *)
Definition GetList (e : Event) (q : list DriveItem -> list DriveItem)
  : M (list DriveItem) :=
  fun w =>
    (Ok (q (drive_at env (queries w))),
     count_query (advance (Z.of_N (query_delay env (queries w))) (emit e w))).

Definition time_time : M Z := fun w => (Ok (clock w), w).

(** [time.sleep(secs)]: a negative length raises ValueError. *)
Definition time_sleep (secs : Z) : M unit :=
  fun w =>
    if (secs <? 0)%Z then (Raise ValueError, w)
    else (Ok tt, advance (secs + Z.of_N (oversleep env (queries w)))
                         (emit (EvSleep secs) w)).

(** [os.makedirs(path, exist_ok=True)], for a path that is a directory
    or does not exist. *)
Definition makedirs (path : string) : M unit :=
  fun w =>
    let w1 := emit (EvMakedirs path) w in
    match disk w !! path with
    | Some _ => (Ok tt, w1)
    | None => (Ok tt, set_disk (<[path := ∅]> (disk w)) w1)
    end.

(** [os.path.exists(p)] *)
Definition path_exists (p : Path) : M bool :=
  fun w => (Ok (bool_decide (is_Some (lookup_path (disk w) p))), w).

Definition dir_exists (folder : string) : M bool :=
  fun w => (Ok (bool_decide (is_Some (disk w !! folder))), w).

(** [os.listdir(folder)]; Python leaves the order unspecified. *)
Definition listdir (folder : string) : M (list string) :=
  fun w =>
    match disk w !! folder with
    | Some dir => (Ok (map fst (map_to_list dir)), w)
    | None => (Raise (OpenError ENOENT (folder, "")), w)
    end.

(** [open(p, "w")] followed by the writes and the close. *)
Definition write_file (p : Path) (data : string) : M unit :=
  fun w =>
    let w1 := emit (EvWrite p) w in
    match disk w !! p.1 with
    | None => (Raise (OpenError ENOENT p), w1)
    | Some dir =>
        match dir !! p.2 with
        | Some (Folder _) => (Raise (OpenError EISDIR p), w1)
        | _ => (Ok tt, set_disk (place_entry p (File data) (disk w)) w1)
        end
    end.

(** [f.GetContentFile(local_path)] *)
Definition GetContentFile (f : DriveItem) (local_path : Path) : M unit :=
  log (EvDownload (title f)) >>
  match content f with
  | None => raise (DownloadError (title f))
  | Some data => write_file local_path data
  end.

(** [os.rename(src, dst)] *)
Definition os_rename (src dst : Path) : M unit :=
  fun w =>
    let w1 := emit (EvRename src dst) w in
    match lookup_path (disk w) src with
    | None => (Raise (RenameError ENOENT src dst), w1)
    | Some n =>
        if rename_refused env (disk w) src dst
        then (Raise (RenameError EACCES src dst), w1)
        else
          match disk w !! dst.1 with
          | None => (Raise (RenameError ENOENT src dst), w1)
          | Some _ =>
              match rename_check n (lookup_path (disk w) dst) with
              | Some code => (Raise (RenameError code src dst), w1)
              | None =>
                  (Ok tt,
                   set_disk (place_entry dst n (remove_entry src (disk w))) w1)
              end
          end
    end.

(** ** The script, step by step *)

(** [def list_drive_files(folder_name)] *)
Definition list_drive_files (folder_name : string) : M (list DriveItem) :=
  let* folder_list :=
    GetList (EvFolderQuery folder_name) (folder_query folder_name) in
  match folder_list with
  | [] => raise (FolderNotFound folder_name)
  | folder :: _ =>
      let folder_id := item_id folder in
      GetList (EvChildrenQuery folder_id) (children_query folder_id)
  end.

(** The [while] loop of step 2.  The result is [Some files] when the loop
    left through [break] ([files_ready = True]) and [None] when the
    condition failed.  One unit of fuel pays one pass through the body. *)
Fixpoint poll_loop (fuel : nat) (start_time : Z) : M (option (list DriveItem)) :=
  let* now := time_time in
  if (now - start_time <? MAX_WAIT tm)%Z then
    match fuel with
    | O => fun w => (OutOfFuel, w)
    | S fuel' =>
        let* files := list_drive_files EXPORT_FOLDER in
        match files with
        | _ :: _ => ret (Some files)
        | [] => time_sleep (WAIT_TIME tm) >> poll_loop fuel' start_time
        end
    end
  else ret None.

(** Step 2 after authentication. *)
Definition wait_for_exports (fuel : nat) : M (list DriveItem) :=
  let* start_time := time_time in
  let* ready := poll_loop fuel start_time in
  match ready with
  | Some files => ret files
  | None => raise TimeoutError
  end.

(** Step 3.  The local path is the entry of the staging directory named
    by the title, which is what [os.path.join] gives for a title that is
    a plain file name. *)
Definition download_one (f : DriveItem) : M unit :=
  let file_name := title f in
  let local_path := entry LOCAL_EXPORTS file_name in
  let* present := path_exists local_path in
  if negb present then GetContentFile f local_path else ret tt.

Definition download_files (files : list DriveItem) : M unit :=
  makedirs LOCAL_EXPORTS >>
  for_each files download_one.

(** Step 5. *)
Definition final_dir_of (stamp : string) : string :=
  path_join LOCAL_PROCESSED ("run_" +:+ stamp).

Definition move_folder (final_dir folder : string) : M unit :=
  let* present := dir_exists folder in
  if present then
    let* names := listdir folder in
    for_each names (fun f =>
      let src := entry folder f in
      let dst := entry final_dir f in
      os_rename src dst)
  else ret tt.

Definition move_files (final_dir : string) : M unit :=
  for_each [LOCAL_EXPORTS; PLOTS] (move_folder final_dir).

Definition organize_outputs : M (string * string) :=
  makedirs LOCAL_PROCESSED >>
  let stamp := timestamp env in
  let final_dir := final_dir_of stamp in
  makedirs final_dir >>
  move_files final_dir >>
  ret (final_dir, stamp).

(** Step 6. *)
Definition write_summary (final_dir stamp : string) (n_files : nat) : M unit :=
  let summary_file := entry final_dir SUMMARY_NAME in
  write_file summary_file (summary_text stamp n_files).

(** Steps 3 to 6, with the [files] the loop left behind. *)
Definition steps_3_to_6 (files : list DriveItem) : M unit :=
  download_files files >>
  subprocess_run PROCESS_SCRIPT (process_script env) >>
  let* out := organize_outputs in
  write_summary out.1 out.2 (length files).

(** The whole script. *)
Definition run_pipeline (fuel : nat) : M unit :=
  subprocess_run EXPORT_SCRIPT (export_script env) >>
  authenticate >>
  let* files := wait_for_exports fuel in
  steps_3_to_6 files.

End Pipeline.

Definition init_world (t0 : Z) (d : FS) : World :=
  {| clock := t0; disk := d; queries := 0; trace := [] |}.

(** ** Observations used in the statements *)

Definition is_folder_query (e : Event) : bool :=
  match e with EvFolderQuery _ => true | _ => false end.

Definition is_query (e : Event) : bool :=
  match e with EvFolderQuery _ | EvChildrenQuery _ => true | _ => false end.

Definition is_sleep (e : Event) : bool :=
  match e with EvSleep _ => true | _ => false end.

Definition is_download (e : Event) : bool :=
  match e with EvDownload _ => true | _ => false end.

(** Events of steps 3, 5 and 6: anything that touches the local disk. *)
Definition is_local (e : Event) : bool :=
  match e with
  | EvMakedirs _ | EvDownload _ | EvRename _ _ | EvWrite _ => true
  | _ => false
  end.

Definition count (p : Event -> bool) (tr : list Event) : nat :=
  length (List.filter p tr).

(** One poll attempt is one call of [list_drive_files]; each starts with
    the folder query. *)
Definition poll_attempts (tr : list Event) : nat := count is_folder_query tr.
Definition remote_queries (tr : list Event) : nat := count is_query tr.
Definition sleeps (tr : list Event) : nat := count is_sleep tr.
Definition downloads (tr : list Event) : nat := count is_download tr.

(** What the call of [list_drive_files(EXPORT_FOLDER)] whose first query
    is the [q]-th of the run returns; [None] when it raises. *)
Definition listing (env : Env) (q : nat) : option (list DriveItem) :=
  match folder_query EXPORT_FOLDER (drive_at env q) with
  | [] => None
  | folder :: _ => Some (children_query (item_id folder) (drive_at env (S q)))
  end.

(** The world after one pass through the loop body that found nothing:
    the listing call, then the sleep. *)
Definition pass (env : Env) (tm : Timing) (w : World) : World :=
  (time_sleep env (WAIT_TIME tm) (list_drive_files env EXPORT_FOLDER w).2).2.

(** Seconds between the first clock check and the one before attempt [k],
    when the attempts before it found nothing; [q0] is the number of
    queries made before the loop. *)
Fixpoint elapsed_before (env : Env) (tm : Timing) (q0 k : nat) : Z :=
  match k with
  | O => 0
  | S k' =>
      elapsed_before env tm q0 k'
      + Z.of_N (query_delay env (q0 + 2 * k'))
      + Z.of_N (query_delay env (q0 + 2 * k' + 1))
      + WAIT_TIME tm
      + Z.of_N (oversleep env (q0 + 2 * k' + 2))
  end.

(** The number of passes the window leaves room for: the ceiling of
    [MAX_WAIT / WAIT_TIME]. *)
Definition poll_bound (tm : Timing) : nat :=
  Z.to_nat ((MAX_WAIT tm + WAIT_TIME tm - 1) / WAIT_TIME tm).

(** The world in which step 2 starts when step 1 and the authentication
    went through. *)
Definition polling_start (env : Env) (t0 : Z) (d0 : FS) : World :=
  {| clock := t0; disk := (export_script env d0).2; queries := 0;
     trace := [EvSubprocess EXPORT_SCRIPT; EvAuth] |}.

(** A computation that makes no Drive query and only appends to the
    trace events satisfying [P]. *)
Definition offline {A} (P : Event -> Prop) (m : M A) : Prop :=
  forall w,
    queries (m w).2 = queries w /\
    exists tr, trace (m w).2 = trace w ++ tr /\ Forall P tr.

(** The events steps 3 to 6 can produce. *)
Definition late_event (env : Env) (e : Event) : Prop :=
  match e with
  | EvSubprocess script => script = PROCESS_SCRIPT
  | EvMakedirs _ | EvDownload _ | EvRename _ _ => True
  | EvWrite p =>
      p.1 = LOCAL_EXPORTS \/
      p = entry (final_dir_of (timestamp env)) SUMMARY_NAME
  | _ => False
  end.



(** The events of a run that are not the write of the summary file. *)
Definition not_summary_write (env : Env) (e : Event) : Prop :=
  e <> EvWrite (entry (final_dir_of (timestamp env)) SUMMARY_NAME).

(** A computation that appends to the trace only events satisfying [P],
    and that, when it ends in the error of a move, has the call of that
    move as the last event of the trace. *)
Definition careful {A} (P : Event -> Prop) (m : M A) : Prop :=
  forall w,
    (exists tr, trace (m w).2 = trace w ++ tr /\ Forall P tr) /\
    (forall code src dst,
       (m w).1 = Raise (RenameError code src dst) ->
       last (trace (m w).2) = Some (EvRename src dst)).

(** Steps 1 to 4 taken together, returning the [files] of step 2, and
    steps 5 and 6 after them.  The script is the first followed by the
    second ([run_pipeline_split]). *)
Definition steps_1_to_4 (env : Env) (tm : Timing) (fuel : nat)
  : M (list DriveItem) :=
  subprocess_run EXPORT_SCRIPT (export_script env) >>
  authenticate env >>
  let* files := wait_for_exports env tm fuel in
  download_files files >>
  subprocess_run PROCESS_SCRIPT (process_script env) >>
  ret files.

Definition steps_5_and_6 (env : Env) (files : list DriveItem) : M unit :=
  let* out := organize_outputs env in
  write_summary out.1 out.2 (length files).

(** ** Sample inputs *)

Definition sample_folder : DriveItem :=
  {| item_id := "F"; title := EXPORT_FOLDER; mimeType := FOLDER_MIME;
     trashed := false; parents := []; content := None |}.

Definition sample_file (name : string) : DriveItem :=
  {| item_id := "id-" +:+ name; title := name; mimeType := "image/tiff";
     trashed := false; parents := ["F"];
     content := Some ("bytes of " +:+ name) |}.

(** An environment in which both scripts succeed and leave the disk as
    it is; the Drive, the query delays and the refusals are given. *)
Definition sample_env (drive : nat -> list DriveItem) (delay : nat -> N)
    (refuse : FS -> Path -> Path -> bool) : Env :=
  {| export_script := fun d => (true, d);
     process_script := fun d => (true, d);
     auth_ok := true;
     drive_at := drive;
     query_delay := delay;
     oversleep := fun _ => 0%N;
     rename_refused := refuse;
     timestamp := "20251004_1530" |}.

Definition never_refuse : FS -> Path -> Path -> bool := fun _ _ _ => false.

(** The folder exists and stays empty. *)
Definition empty_drive : nat -> list DriveItem := fun _ => [sample_folder].

(** Nothing on the first attempt, three files from the second on. *)
Definition late_drive : nat -> list DriveItem :=
  fun q => if (q <? 2)%nat then [sample_folder]
           else [sample_folder; sample_file "a.tif"; sample_file "b.tif";
                 sample_file "c.tif"].

Definition short_timing : Timing := {| WAIT_TIME := 300; MAX_WAIT := 600 |}.

(** A window of two poll intervals of one second. *)
Definition tight_timing : Timing := {| WAIT_TIME := 1; MAX_WAIT := 2 |}.

Definition empty_env : Env := sample_env empty_drive (fun _ => 0%N) never_refuse.

(** Every Drive query takes five minutes. *)
Definition slow_env : Env := sample_env empty_drive (fun _ => 300%N) never_refuse.

(** Every Drive query takes one second. *)
Definition lagging_env : Env := sample_env empty_drive (fun _ => 1%N) never_refuse.

(** The folder is there for the first attempt and gone afterwards. *)
Definition vanishing_drive : nat -> list DriveItem :=
  fun q => if (q <? 2)%nat then [sample_folder] else [].

(** A disk on which one export is already staged. *)
Definition staged_disk : FS :=
  {[ LOCAL_EXPORTS := {[ "a.tif" := File "bytes from an earlier run" ]} ]}.

(** A disk on which both source directories hold an entry [x.png]. *)
Definition collision_disk : FS :=
  {[ LOCAL_EXPORTS := {[ "a.tif" := File "export a"; "x.png" := File "export x" ]};
     PLOTS := {[ "x.png" := File "plot x"; "p.png" := File "plot p" ]} ]}.

(** A disk on which the run directory of the minute already exists, with
    an [a.tif] and a summary of an earlier run in it. *)
Definition rerun_disk : FS :=
  {[ LOCAL_EXPORTS := {[ "a.tif" := File "second a"; "b.tif" := File "second b" ]};
     final_dir_of "20251004_1530" :=
       {[ "a.tif" := File "first a"; "SUMMARY.txt" := File "first summary" ]} ]}.

(** A disk on which the export [a.tif] cannot be moved: the run directory
    already holds a directory of that name. *)
Definition blocked_disk : FS :=
  {[ final_dir_of "20251004_1530" := {[ "a.tif" := Folder ["tile_1.tif"] ]} ]}.

(** Only [a.tif] is exported. *)
Definition single_drive : nat -> list DriveItem :=
  fun _ => [sample_folder; sample_file "a.tif"].

(** ** Further observations and sample inputs *)

(** Events of step 2: a Drive query or a sleep. *)
Definition is_poll_event (e : Event) : bool := is_query e || is_sleep e.

(** The name is held by one of the three directories step 5 works on. *)
Definition held (fd : string) (d : FS) (name : string) : Prop :=
  is_Some (lookup_path d (entry LOCAL_EXPORTS name)) \/
  is_Some (lookup_path d (entry PLOTS name)) \/
  is_Some (lookup_path d (entry fd name)).

(** Step 5 from disk [d] to disk [d']: no name is dropped from the three
    directories, and no other directory than these and the processed
    root is touched. *)
Definition moves_keep (fd : string) (d d' : FS) : Prop :=
  (forall name, held fd d name -> held fd d' name) /\
  (forall folder,
     folder <> LOCAL_EXPORTS -> folder <> PLOTS -> folder <> fd ->
     folder <> LOCAL_PROCESSED -> d' !! folder = d !! folder).

(** Step 3 from disk [d] to disk [d']: every entry is kept as it was, and
    no other directory than the staging one is touched. *)
Definition fetch_grows (d d' : FS) : Prop :=
  (forall p n, lookup_path d p = Some n -> lookup_path d' p = Some n) /\
  (forall folder, folder <> LOCAL_EXPORTS -> d' !! folder = d !! folder).

(** The first entry of a listing that carries the title. *)
Definition first_titled (t : string) (files : list DriveItem) : option DriveItem :=
  List.find (fun f => String.eqb (title f) t) files.

(** An environment given by its two scripts, the authentication and the
    Drive; queries take no time and no move is refused. *)
Definition scripted_env (export process : FS -> bool * FS) (auth : bool)
    (drive : nat -> list DriveItem) : Env :=
  {| export_script := export;
     process_script := process;
     auth_ok := auth;
     drive_at := drive;
     query_delay := fun _ => 0%N;
     oversleep := fun _ => 0%N;
     rename_refused := never_refuse;
     timestamp := "20251004_1530" |}.

Definition script_ok : FS -> bool * FS := fun d => (true, d).
Definition script_fails : FS -> bool * FS := fun d => (false, d).

(** An object of the folder whose download raises. *)
Definition broken_file (name : string) : DriveItem :=
  {| item_id := "id-" +:+ name; title := name;
     mimeType := "application/vnd.google-apps.document";
     trashed := false; parents := ["F"]; content := None |}.

(** The folder holds two objects of the same title. *)
Definition twin_files : list DriveItem :=
  [ {| item_id := "1"; title := "a.tif"; mimeType := "image/tiff";
       trashed := false; parents := ["F"]; content := Some "first bytes" |};
    {| item_id := "2"; title := "a.tif"; mimeType := "image/tiff";
       trashed := false; parents := ["F"]; content := Some "second bytes" |} ].

(** A window that is over before it starts. *)
Definition closed_timing : Timing := {| WAIT_TIME := 300; MAX_WAIT := 0 |}.

(** The plots directory holds a file, or a directory, named like the
    summary. *)
Definition summary_file_disk : FS :=
  {[ LOCAL_EXPORTS := {[ "a.tif" := File "export a" ]};
     PLOTS := {[ "SUMMARY.txt" := File "notes of the plotting step" ]} ]}.

Definition summary_folder_disk : FS :=
  {[ LOCAL_EXPORTS := {[ "a.tif" := File "export a" ]};
     PLOTS := {[ "SUMMARY.txt" := Folder ["page_1.png"] ]} ]}.

(** ** Titles, platforms, and what they are used for *)

Fixpoint has_char (c : ascii) (s : string) : bool :=
  match s with
  | EmptyString => false
  | String x rest => Ascii.eqb x c || has_char c rest
  end.

(** A title that is one path component: not empty, not [.] or [..], at
    most 255 bytes, without a separator ([/], and the [\] and [:] of
    Windows paths) and without the NUL character.  For such a title
    [os.path.join(LOCAL_EXPORTS, title)] names the entry of that name in
    the staging directory, which is what [download_one] takes it to be
    (names being compared byte by byte, as a file system that
    distinguishes case does).  For any other title the joined path
    names the staging directory itself, a path below or outside it, or
    no path at all; the statements about downloaded files are made for
    plain titles. *)
Definition plain_title (t : string) : bool :=
  negb (String.eqb t "") && negb (String.eqb t ".")
  && negb (String.eqb t "..")
  && (String.length t <=? 255)%nat
  && negb (has_char "/" t) && negb (has_char "\" t)
  && negb (has_char ":" t) && negb (has_char "000" t).

Definition plain_titles (files : list DriveItem) : Prop :=
  Forall (fun f => plain_title (title f) = true) files.

(** The downloads of the object titled [t]. *)
Definition is_download_of (t : string) (e : Event) : bool :=
  match e with EvDownload name => String.eqb name t | _ => false end.

Definition downloads_of (t : string) (tr : list Event) : nat :=
  count (is_download_of t) tr.

(** The titles of the listing that have no file in the staging directory
    of the disk [d], each of them once. *)
Definition missing_titles (d : FS) (files : list DriveItem) : list string :=
  filter (fun t => lookup_path d (entry LOCAL_EXPORTS t) = None)
         (remove_dups (map title files)).

(** What [os.rename] does when the destination exists depends on the
    platform.  On Unix the rules of [rename_check] apply.  On Windows,
    where the docstring of the script has it scheduled, the call raises
    FileExistsError whenever the destination exists; the model has this
    as a refusal by the operating system (reported under [EACCES], as
    every refusal is). *)
Inductive platform := Unix | Windows.

Definition refusal_rule (pf : platform) : FS -> Path -> Path -> bool :=
  fun d _ dst =>
    match pf with
    | Unix => false
    | Windows => bool_decide (is_Some (lookup_path d dst))
    end.







(** * Properties *)

(** ** The monad *)

Lemma bind_Ok_inv {A B} (m : M A) (k : A -> M B) w b w' :
  bind m k w = (Ok b, w') ->
  exists a w1, m w = (Ok a, w1) /\ k a w1 = (Ok b, w').
Proof.
  unfold bind. destruct (m w) as [[a|e|] w1]; intros H; try discriminate.
  exists a, w1. split; [reflexivity | exact H].
Qed.

Lemma bind_Raise_inv {A B} (m : M A) (k : A -> M B) w e w' :
  bind m k w = (Raise e, w') ->
  m w = (Raise e, w') \/
  exists a w1, m w = (Ok a, w1) /\ k a w1 = (Raise e, w').
Proof.
  unfold bind. destruct (m w) as [[a|e0|] w1]; intros H; try discriminate.
  - right. exists a, w1. split; [reflexivity | exact H].
  - left. injection H as -> ->. reflexivity.
Qed.

Lemma bind_Ok_step {A B} (m : M A) (k : A -> M B) w a w1 :
  m w = (Ok a, w1) -> bind m k w = k a w1.
Proof. intros H. unfold bind. rewrite H. reflexivity. Qed.

Lemma bind_Raise_step {A B} (m : M A) (k : A -> M B) w e w1 :
  m w = (Raise e, w1) -> bind m k w = (Raise e, w1).
Proof. intros H. unfold bind. rewrite H. reflexivity. Qed.

Lemma offline_ret {A} P (a : A) : offline P (ret a).
Proof.
  intros w. split; [reflexivity|]. exists []. simpl. rewrite app_nil_r. auto.
Qed.

Lemma offline_raise {A} P e : offline P (@raise A e).
Proof.
  intros w. split; [reflexivity|]. exists []. simpl. rewrite app_nil_r. auto.
Qed.

Lemma offline_bind {A B} P (m : M A) (k : A -> M B) :
  offline P m -> (forall a, offline P (k a)) -> offline P (bind m k).
Proof.
  intros Hm Hk w. unfold bind.
  destruct (Hm w) as (Q1 & tr1 & E1 & F1).
  destruct (m w) as [[a|e|] w1]; simpl in *.
  - destruct (Hk a w1) as (Q2 & tr2 & E2 & F2).
    split; [congruence|].
    exists (tr1 ++ tr2). rewrite E2, E1, app_assoc. split; [reflexivity|].
    apply Forall_app; auto.
  - split; [exact Q1|]. exists tr1; auto.
  - split; [exact Q1|]. exists tr1; auto.
Qed.

Lemma offline_bind_result {A B} P (m : M A) (k : A -> M B) :
  offline P m ->
  (forall a, (exists w w1, m w = (Ok a, w1)) -> offline P (k a)) ->
  offline P (bind m k).
Proof.
  intros Hm Hk w. unfold bind.
  destruct (Hm w) as (Q1 & tr1 & E1 & F1).
  destruct (m w) as [[a|e|] w1] eqn:Em; simpl in *.
  - destruct (Hk a ltac:(eauto) w1) as (Q2 & tr2 & E2 & F2).
    split; [congruence|].
    exists (tr1 ++ tr2). rewrite E2, E1, app_assoc. split; [reflexivity|].
    apply Forall_app; auto.
  - split; [exact Q1|]. exists tr1; auto.
  - split; [exact Q1|]. exists tr1; auto.
Qed.

Lemma offline_for_each {A} P (xs : list A) body :
  (forall x, offline P (body x)) -> offline P (for_each xs body).
Proof.
  intros Hb. induction xs as [|x xs IH]; simpl.
  - apply offline_ret.
  - apply offline_bind; auto.
Qed.

Lemma offline_one {A} (P : Event -> Prop) (m : M A) e :
  P e ->
  (forall w, queries (m w).2 = queries w /\ trace (m w).2 = trace w ++ [e]) ->
  offline P m.
Proof.
  intros HP H w. destruct (H w) as [Hq Ht]. split; [exact Hq|].
  exists [e]. split; [exact Ht | constructor; auto].
Qed.

Lemma offline_none {A} (P : Event -> Prop) (m : M A) :
  (forall w, (m w).2 = w) -> offline P m.
Proof.
  intros H w. rewrite H. split; [reflexivity|].
  exists []. rewrite app_nil_r. split; [reflexivity | constructor].
Qed.

(** ** Counting in traces *)

Lemma count_app p (a b : list Event) : count p (a ++ b) = count p a + count p b.
Proof. unfold count. rewrite List.filter_app, length_app. reflexivity. Qed.

Lemma count_zero p (tr : list Event) :
  Forall (fun e => p e = false) tr -> count p tr = 0.
Proof.
  unfold count. induction 1 as [|e tr He _ IH]; simpl; [reflexivity|].
  rewrite He. exact IH.
Qed.

(** ** Step 2: one call of [list_drive_files] *)

Section ListDriveFiles.

Variable env : Env.

Lemma list_drive_files_found w folder rest :
  folder_query EXPORT_FOLDER (drive_at env (queries w)) = folder :: rest ->
  list_drive_files env EXPORT_FOLDER w =
    (Ok (children_query (item_id folder) (drive_at env (S (queries w)))),
     {| clock := (clock w + Z.of_N (query_delay env (queries w))
                  + Z.of_N (query_delay env (S (queries w))))%Z;
        disk := disk w;
        queries := S (S (queries w));
        trace := trace w ++ [EvFolderQuery EXPORT_FOLDER;
                             EvChildrenQuery (item_id folder)] |}).
Proof.
  intros Hq. unfold list_drive_files, bind, GetList. simpl. rewrite Hq.
  unfold GetList, count_query, advance, emit. simpl.
  rewrite <- app_assoc. reflexivity.
Qed.

Lemma list_drive_files_missing w :
  folder_query EXPORT_FOLDER (drive_at env (queries w)) = [] ->
  list_drive_files env EXPORT_FOLDER w =
    (Raise (FolderNotFound EXPORT_FOLDER),
     {| clock := (clock w + Z.of_N (query_delay env (queries w)))%Z;
        disk := disk w;
        queries := S (queries w);
        trace := trace w ++ [EvFolderQuery EXPORT_FOLDER] |}).
Proof.
  intros Hq. unfold list_drive_files, bind, GetList. simpl. rewrite Hq.
  reflexivity.
Qed.

Lemma listing_Some_inv q files :
  listing env q = Some files ->
  exists folder rest,
    folder_query EXPORT_FOLDER (drive_at env q) = folder :: rest /\
    files = children_query (item_id folder) (drive_at env (S q)).
Proof.
  unfold listing. destruct (folder_query _ _) as [|folder rest]; [discriminate|].
  intros [= <-]. eauto.
Qed.

Lemma list_drive_files_listing w files :
  listing env (queries w) = Some files ->
  exists w1,
    list_drive_files env EXPORT_FOLDER w = (Ok files, w1) /\
    clock w1 = (clock w + Z.of_N (query_delay env (queries w))
                + Z.of_N (query_delay env (S (queries w))))%Z /\
    disk w1 = disk w /\
    queries w1 = S (S (queries w)) /\
    exists fid, trace w1 = trace w ++ [EvFolderQuery EXPORT_FOLDER;
                                       EvChildrenQuery fid].
Proof.
  intros H. destruct (listing_Some_inv _ _ H) as (folder & rest & Hq & ->).
  eexists. split; [apply (list_drive_files_found _ _ _ Hq)|].
  simpl. repeat split; eauto.
Qed.

End ListDriveFiles.

(** ** Step 2: the loop *)

Section PollLoop.

Variable env : Env.
Variable tm : Timing.

Lemma poll_loop_expired fuel start w :
  (MAX_WAIT tm <= clock w - start)%Z ->
  poll_loop env tm fuel start w = (Ok None, w).
Proof.
  intros H. destruct fuel; simpl; unfold bind, time_time;
    (destruct (Z.ltb_spec (clock w - start) (MAX_WAIT tm)); [lia | reflexivity]).
Qed.

Lemma poll_loop_found fuel start w files :
  (clock w - start < MAX_WAIT tm)%Z ->
  listing env (queries w) = Some files -> files <> [] ->
  poll_loop env tm (S fuel) start w =
    (Ok (Some files), (list_drive_files env EXPORT_FOLDER w).2).
Proof.
  intros Hw Hl Hne. simpl. unfold bind at 1, time_time.
  destruct (Z.ltb_spec (clock w - start) (MAX_WAIT tm)); [|lia].
  destruct (list_drive_files_listing env w files Hl) as (w1 & E & _).
  unfold bind. rewrite E. destruct files; [congruence | reflexivity].
Qed.

Lemma poll_loop_pass fuel start w :
  (clock w - start < MAX_WAIT tm)%Z -> (0 <= WAIT_TIME tm)%Z ->
  listing env (queries w) = Some [] ->
  poll_loop env tm (S fuel) start w = poll_loop env tm fuel start (pass env tm w).
Proof.
  intros Hw Hs Hl. simpl. unfold bind at 1, time_time.
  destruct (Z.ltb_spec (clock w - start) (MAX_WAIT tm)); [|lia].
  destruct (list_drive_files_listing env w [] Hl) as (w1 & E & _).
  unfold pass. unfold bind at 1. rewrite E. simpl.
  unfold bind, time_sleep.
  destruct (Z.ltb_spec (WAIT_TIME tm) 0); [lia | reflexivity].
Qed.

(** One pass that found nothing, spelled out. *)
Lemma pass_spec w :
  (0 <= WAIT_TIME tm)%Z -> listing env (queries w) = Some [] ->
  clock (pass env tm w) =
    (clock w + Z.of_N (query_delay env (queries w))
     + Z.of_N (query_delay env (S (queries w)))
     + WAIT_TIME tm + Z.of_N (oversleep env (S (S (queries w)))))%Z /\
  disk (pass env tm w) = disk w /\
  queries (pass env tm w) = S (S (queries w)) /\
  exists fid, trace (pass env tm w) =
    trace w ++ [EvFolderQuery EXPORT_FOLDER; EvChildrenQuery fid;
                EvSleep (WAIT_TIME tm)].
Proof.
  intros Hs Hl.
  destruct (list_drive_files_listing env w [] Hl)
    as (w1 & E & Hc & Hd & Hq & fid & Ht).
  unfold pass. rewrite E. simpl. unfold time_sleep.
  destruct (Z.ltb_spec (WAIT_TIME tm) 0); [lia|]. simpl.
  rewrite Hc, Hd, Hq, Ht. repeat split; [lia|].
  exists fid. rewrite <- app_assoc. reflexivity.
Qed.

End PollLoop.

(** ** Step 2 when the container stays empty *)

Lemma wait_for_exports_unfold env tm fuel w :
  wait_for_exports env tm fuel w =
    match poll_loop env tm fuel (clock w) w with
    | (Ok (Some files), w') => (Ok files, w')
    | (Ok None, w') => (Raise TimeoutError, w')
    | (Raise e, w') => (Raise e, w')
    | (OutOfFuel, w') => (OutOfFuel, w')
    end.
Proof.
  unfold wait_for_exports, bind, time_time.
  destruct (poll_loop env tm fuel (clock w) w) as [[[files|]|e|] w']; reflexivity.
Qed.

Lemma elapsed_before_ge env tm q0 n :
  (0 <= WAIT_TIME tm)%Z ->
  (Z.of_nat n * WAIT_TIME tm <= elapsed_before env tm q0 n)%Z.
Proof.
  intros Hs. induction n as [|n IH]; [simpl; lia|].
  cbn [elapsed_before]. nia.
Qed.

Lemma elapsed_before_ideal env tm q0 n :
  (forall q, query_delay env q = 0%N) -> (forall q, oversleep env q = 0%N) ->
  elapsed_before env tm q0 n = (Z.of_nat n * WAIT_TIME tm)%Z.
Proof.
  intros Hd Ho. induction n as [|n IH]; [reflexivity|].
  cbn [elapsed_before]. rewrite IH, !Hd, Ho. lia.
Qed.

Lemma poll_bound_enough tm fuel :
  (0 < WAIT_TIME tm)%Z -> poll_bound tm <= fuel ->
  (MAX_WAIT tm <= Z.of_nat fuel * WAIT_TIME tm)%Z.
Proof.
  unfold poll_bound. intros Hs Hf.
  pose proof (Z.div_mod (MAX_WAIT tm + WAIT_TIME tm - 1) (WAIT_TIME tm)).
  pose proof (Z.mod_pos_bound (MAX_WAIT tm + WAIT_TIME tm - 1) (WAIT_TIME tm) Hs).
  destruct (Z.le_gt_cases (MAX_WAIT tm) 0); [nia|].
  assert (0 <= (MAX_WAIT tm + WAIT_TIME tm - 1) / WAIT_TIME tm)%Z
    by (apply Z.div_pos; lia).
  nia.
Qed.

Section AlwaysEmpty.

Variable env : Env.
Variable tm : Timing.
Hypothesis Hempty : forall q, listing env q = Some [].
Hypothesis Hwait : (0 < WAIT_TIME tm)%Z.

Lemma passes_spec n w :
  let w' := Nat.iter n (pass env tm) w in
  clock w' = (clock w + elapsed_before env tm (queries w) n)%Z /\
  disk w' = disk w /\
  queries w' = queries w + 2 * n /\
  exists tr,
    trace w' = trace w ++ tr /\
    poll_attempts tr = n /\ sleeps tr = n /\ remote_queries tr = 2 * n /\
    Forall (fun e => is_local e = false) tr /\
    (0 < n -> last tr = Some (EvSleep (WAIT_TIME tm))) /\
    Forall (fun e => is_sleep e = true -> e = EvSleep (WAIT_TIME tm)) tr.
Proof.
  induction n as [|n IH]; cbv zeta in *; cbn [elapsed_before].
  - change (Nat.iter 0 (pass env tm) w) with w.
    split; [lia|]. split; [reflexivity|]. split; [lia|].
    exists []. rewrite app_nil_r.
    split; [reflexivity|]. split; [reflexivity|]. split; [reflexivity|].
    split; [reflexivity|]. split; [constructor|]. split; [lia | constructor].
  - destruct IH as (Hc & Hd & Hq & tr & Ht & Ha & Hs & Hr & Hl & _ & Hfull).
    rewrite Nat.iter_succ.
    set (wn := Nat.iter n (pass env tm) w) in *.
    destruct (pass_spec env tm wn ltac:(lia) (Hempty _))
      as (Hc' & Hd' & Hq' & fid & Ht').
    rewrite Hc', Hd', Hq', Ht', Hc, Hd, Hq, Ht.
    replace (S (queries w + 2 * n)) with (queries w + 2 * n + 1) by lia.
    replace (S (queries w + 2 * n + 1)) with (queries w + 2 * n + 2) by lia.
    split; [lia|]. split; [reflexivity|]. split; [lia|].
    exists (tr ++ [EvFolderQuery EXPORT_FOLDER; EvChildrenQuery fid;
                   EvSleep (WAIT_TIME tm)]).
    rewrite app_assoc. unfold poll_attempts, sleeps, remote_queries in *.
    rewrite !count_app, Ha, Hs, Hr.
    split; [reflexivity|]. split; [cbn; lia|]. split; [cbn; lia|].
    split; [cbn; lia|]. split; [|split].
    + apply Forall_app. split; [exact Hl|]. repeat constructor.
    + intros _.
      change [EvFolderQuery EXPORT_FOLDER; EvChildrenQuery fid;
              EvSleep (WAIT_TIME tm)]
        with ([EvFolderQuery EXPORT_FOLDER; EvChildrenQuery fid]
              ++ [EvSleep (WAIT_TIME tm)]).
      rewrite app_assoc. apply last_snoc.
    + apply Forall_app. split; [exact Hfull|].
      repeat constructor; simpl; intros; (discriminate || reflexivity).
Qed.

Lemma poll_loop_empty fuel : forall w start,
  (MAX_WAIT tm - (clock w - start) <= Z.of_nat fuel * WAIT_TIME tm)%Z ->
  exists n,
    poll_loop env tm fuel start w = (Ok None, Nat.iter n (pass env tm) w) /\
    (forall i, i < n ->
       (clock (Nat.iter i (pass env tm) w) - start < MAX_WAIT tm)%Z) /\
    (MAX_WAIT tm <= clock (Nat.iter n (pass env tm) w) - start)%Z.
Proof.
  induction fuel as [|fuel IH]; intros w start Hf.
  - exists 0. simpl Nat.iter. split; [apply poll_loop_expired; lia|].
    split; [lia | lia].
  - destruct (Z.lt_ge_cases (clock w - start) (MAX_WAIT tm)) as [Hin|Hout].
    + rewrite (poll_loop_pass env tm fuel start w Hin ltac:(lia) (Hempty _)).
      destruct (pass_spec env tm w ltac:(lia) (Hempty _)) as (Hc & _).
      destruct (IH (pass env tm w) start ltac:(lia)) as (n & E & Hlt & Hge).
      exists (S n). rewrite !Nat.iter_succ_r. split; [exact E|].
      split; [|exact Hge].
      intros [|i] Hi; [exact Hin|].
      rewrite Nat.iter_succ_r. apply Hlt. lia.
    + exists 0. simpl Nat.iter. split; [apply poll_loop_expired; lia|].
      split; [lia | lia].
Qed.

(** The loop leaves through its condition after a number [n] of passes
    that the clock fixes: every check before pass [i < n] saw less than
    [MAX_WAIT] elapsed, the check after pass [n] did not. *)
Lemma wait_always_empty fuel w :
  poll_bound tm <= fuel ->
  exists n,
    wait_for_exports env tm fuel w =
      (Raise TimeoutError, Nat.iter n (pass env tm) w) /\
    (forall i, i < n -> (elapsed_before env tm (queries w) i < MAX_WAIT tm)%Z) /\
    (MAX_WAIT tm <= elapsed_before env tm (queries w) n)%Z.
Proof.
  intros Hf. pose proof (poll_bound_enough tm fuel Hwait Hf) as Hb.
  destruct (poll_loop_empty fuel w (clock w) ltac:(lia)) as (n & E & Hlt & Hge).
  exists n. rewrite wait_for_exports_unfold, E. split; [reflexivity|].
  split.
  - intros i Hi. specialize (Hlt i Hi).
    destruct (passes_spec i w) as (Hc & _). simpl in Hc. lia.
  - destruct (passes_spec n w) as (Hc & _). simpl in Hc. lia.
Qed.

End AlwaysEmpty.

Lemma run_pipeline_polling env tm fuel t0 d0 :
  (export_script env d0).1 = true -> auth_ok env = true ->
  run_pipeline env tm fuel (init_world t0 d0) =
    bind (wait_for_exports env tm fuel) (steps_3_to_6 env)
         (polling_start env t0 d0).
Proof.
  intros He Ha. unfold run_pipeline.
  unfold bind at 1. unfold subprocess_run. simpl. rewrite He.
  unfold bind at 1. unfold authenticate. rewrite Ha. reflexivity.
Qed.

(** ** The claims about the polling step *)

(** C1.  If every listing of the container is empty, the run ends in
    [TimeoutError] (the specification's ExportTimeoutError); nothing of
    steps 3 to 6 has happened: the trace holds no makedirs, download,
    rename or write, and the disk is the one the export script left. *)
Theorem empty_container_times_out env tm fuel t0 d0 :
  (export_script env d0).1 = true -> auth_ok env = true ->
  (forall q, listing env q = Some []) ->
  (0 < WAIT_TIME tm)%Z -> poll_bound tm <= fuel ->
  let r := run_pipeline env tm fuel (init_world t0 d0) in
  r.1 = Raise TimeoutError /\
  disk r.2 = (export_script env d0).2 /\
  Forall (fun e => is_local e = false) (trace r.2) /\
  downloads (trace r.2) = 0.
Proof.
  intros He Ha Hempty Hwait Hfuel r. subst r.
  rewrite (run_pipeline_polling env tm fuel t0 d0 He Ha).
  destruct (wait_always_empty env tm Hempty Hwait fuel
              (polling_start env t0 d0) Hfuel) as (n & E & _).
  rewrite (bind_Raise_step _ _ _ _ _ E). simpl.
  destruct (passes_spec env tm Hempty Hwait n (polling_start env t0 d0))
    as (_ & Hd & _ & tr & Ht & _ & _ & _ & Hl & _).
  split; [reflexivity|]. split; [exact Hd|].
  assert (Hall : Forall (fun e => is_local e = false)
                   (trace (Nat.iter n (pass env tm) (polling_start env t0 d0)))).
  { rewrite Ht. apply Forall_app. split; [repeat constructor | exact Hl]. }
  split; [exact Hall|].
  apply count_zero. eapply Forall_impl; [exact Hall|].
  intros [] H; simpl in *; congruence.
Qed.

Lemma empty_container_times_out_witness :
  let r := run_pipeline empty_env source_timing 24 (init_world 0 ∅) in
  r.1 = Raise TimeoutError /\
  disk r.2 = (export_script empty_env ∅).2 /\
  Forall (fun e => is_local e = false) (trace r.2) /\
  downloads (trace r.2) = 0.
Proof.
  apply (empty_container_times_out empty_env source_timing 24 0%Z ∅).
  - reflexivity.
  - reflexivity.
  - intros q. reflexivity.
  - reflexivity.
  - vm_compute. lia.
Defined.

(** C9.  With the container staying empty, the timeout is raised after
    at least one attempt; there are as many sleeps as attempts, each of
    them a sleep of [WAIT_TIME] that runs to its end; the last thing
    before the error is such a sleep; and at least [MAX_WAIT] seconds
    have gone by since polling started. *)
Theorem timeout_follows_a_full_sleep env tm fuel w :
  (forall q, listing env q = Some []) ->
  (0 < WAIT_TIME tm)%Z -> (0 < MAX_WAIT tm)%Z -> poll_bound tm <= fuel ->
  exists w' tr,
    wait_for_exports env tm fuel w = (Raise TimeoutError, w') /\
    trace w' = trace w ++ tr /\
    1 <= poll_attempts tr /\
    sleeps tr = poll_attempts tr /\
    Forall (fun e => is_sleep e = true -> e = EvSleep (WAIT_TIME tm)) tr /\
    last tr = Some (EvSleep (WAIT_TIME tm)) /\
    (MAX_WAIT tm <= clock w' - clock w)%Z /\
    (Z.of_nat (sleeps tr) * WAIT_TIME tm <= clock w' - clock w)%Z.
Proof.
  intros Hempty Hwait Hmax Hfuel.
  destruct (wait_always_empty env tm Hempty Hwait fuel w Hfuel)
    as (n & E & Hlt & Hge).
  destruct (passes_spec env tm Hempty Hwait n w)
    as (Hc & _ & _ & tr & Ht & Ha & Hs & _ & _ & Hlast & Hfull).
  assert (Hn : 1 <= n).
  { destruct n; [simpl in Hge; lia | lia]. }
  exists (Nat.iter n (pass env tm) w), tr.
  split; [exact E|]. split; [exact Ht|]. rewrite Ha, Hs.
  split; [exact Hn|]. split; [reflexivity|]. split; [exact Hfull|].
  split; [apply Hlast; lia|].
  pose proof (elapsed_before_ge env tm (queries w) n ltac:(lia)).
  split; lia.
Qed.

Lemma timeout_follows_a_full_sleep_witness :
  exists w' tr,
    wait_for_exports slow_env source_timing 24 (init_world 0 ∅)
      = (Raise TimeoutError, w') /\
    trace w' = trace (init_world 0 ∅) ++ tr /\
    1 <= poll_attempts tr /\
    sleeps tr = poll_attempts tr /\
    Forall (fun e => is_sleep e = true -> e = EvSleep (WAIT_TIME source_timing))
           tr /\
    last tr = Some (EvSleep (WAIT_TIME source_timing)) /\
    (MAX_WAIT source_timing <= clock w' - clock (init_world 0 ∅))%Z /\
    (Z.of_nat (sleeps tr) * WAIT_TIME source_timing
     <= clock w' - clock (init_world 0 ∅))%Z.
Proof.
  apply (timeout_follows_a_full_sleep slow_env source_timing 24
           (init_world 0 ∅)).
  - intros q. reflexivity.
  - reflexivity.
  - reflexivity.
  - vm_compute. lia.
Defined.

(** C8, as stated, fails: with a poll interval of one second, a window
    of two seconds and a container that stays empty, a Drive whose
    queries take one second each lets the loop run once only.  The first
    pass (two queries and the sleep) ends three seconds after the start,
    so the second check of the clock already fails. *)
Lemma two_attempts_need_a_fast_drive :
  let r := run_pipeline lagging_env tight_timing 2 (init_world 0 ∅) in
  MAX_WAIT tight_timing = (2 * WAIT_TIME tight_timing)%Z /\
  (forall q, listing lagging_env q = Some []) /\
  r.1 = Raise TimeoutError /\
  poll_attempts (trace r.2) = 1 /\
  poll_attempts (trace r.2) <> 2.
Proof.
  cbv zeta. split; [reflexivity|]. split; [intros q; reflexivity|].
  vm_compute. repeat split. discriminate.
Qed.

(** C8, amended.  With the container staying empty the number of poll
    attempts before the [TimeoutError] is fixed by the clock checks: it
    is at least one and at most the ceiling of [MAX_WAIT / WAIT_TIME];
    it is that ceiling when queries and sleeps take no extra time; and it
    is exactly 2 when [MAX_WAIT = 2 * WAIT_TIME] and the two queries and
    the oversleep of the first pass take less than [WAIT_TIME]. *)
Theorem attempts_fixed_by_the_clock env tm fuel w :
  (forall q, listing env q = Some []) ->
  (0 < WAIT_TIME tm)%Z -> (0 < MAX_WAIT tm)%Z -> poll_bound tm <= fuel ->
  exists w' tr,
    wait_for_exports env tm fuel w = (Raise TimeoutError, w') /\
    trace w' = trace w ++ tr /\
    1 <= poll_attempts tr <= poll_bound tm /\
    ((forall q, query_delay env q = 0%N) -> (forall q, oversleep env q = 0%N) ->
     poll_attempts tr = poll_bound tm) /\
    (MAX_WAIT tm = (2 * WAIT_TIME tm)%Z ->
     (Z.of_N (query_delay env (queries w))
      + Z.of_N (query_delay env (queries w + 1))
      + Z.of_N (oversleep env (queries w + 2)) < WAIT_TIME tm)%Z ->
     poll_attempts tr = 2).
Proof.
  intros Hempty Hwait Hmax Hfuel.
  destruct (wait_always_empty env tm Hempty Hwait fuel w Hfuel)
    as (n & E & Hlt & Hge).
  destruct (passes_spec env tm Hempty Hwait n w)
    as (_ & _ & _ & tr & Ht & Ha & _).
  exists (Nat.iter n (pass env tm) w), tr.
  split; [exact E|]. split; [exact Ht|]. rewrite Ha.
  assert (Hn : 1 <= n).
  { destruct n; [simpl in Hge; lia | lia]. }
  assert (Hprev : (Z.of_nat (n - 1) * WAIT_TIME tm < MAX_WAIT tm)%Z).
  { pose proof (Hlt (n - 1) ltac:(lia)).
    pose proof (elapsed_before_ge env tm (queries w) (n - 1) ltac:(lia)). lia. }
  split; [|split].
  - split; [exact Hn|]. unfold poll_bound.
    assert (Z.of_nat n <= (MAX_WAIT tm + WAIT_TIME tm - 1) / WAIT_TIME tm)%Z.
    { apply Z.div_le_lower_bound; [exact Hwait | nia]. }
    lia.
  - intros Hd Ho.
    rewrite (elapsed_before_ideal env tm (queries w) n Hd Ho) in Hge.
    unfold poll_bound.
    assert (Z.of_nat n = (MAX_WAIT tm + WAIT_TIME tm - 1) / WAIT_TIME tm)%Z.
    { apply Z.div_unique
        with (r := (MAX_WAIT tm + WAIT_TIME tm - 1 - WAIT_TIME tm * Z.of_nat n)%Z);
        [left; nia | lia]. }
    lia.
  - intros H2 Hfast.
    assert (H1 : (elapsed_before env tm (queries w) 1 < MAX_WAIT tm)%Z).
    { cbn [elapsed_before]. rewrite Nat.mul_0_r, Nat.add_0_r. lia. }
    pose proof (elapsed_before_ge env tm (queries w) 2 ltac:(lia)) as H2ge.
    destruct n as [|[|[|n]]]; [lia | lia | reflexivity |].
    pose proof (Hlt 2 ltac:(lia)). lia.
Qed.

Lemma attempts_fixed_by_the_clock_witness :
  exists w' tr,
    wait_for_exports empty_env short_timing 2 (init_world 0 ∅)
      = (Raise TimeoutError, w') /\
    trace w' = trace (init_world 0 ∅) ++ tr /\
    1 <= poll_attempts tr <= poll_bound short_timing /\
    ((forall q, query_delay empty_env q = 0%N) ->
     (forall q, oversleep empty_env q = 0%N) ->
     poll_attempts tr = poll_bound short_timing) /\
    (MAX_WAIT short_timing = (2 * WAIT_TIME short_timing)%Z ->
     (Z.of_N (query_delay empty_env (queries (init_world 0 ∅)))
      + Z.of_N (query_delay empty_env (queries (init_world 0 ∅) + 1))
      + Z.of_N (oversleep empty_env (queries (init_world 0 ∅) + 2))
      < WAIT_TIME short_timing)%Z ->
     poll_attempts tr = 2).
Proof.
  apply (attempts_fixed_by_the_clock empty_env short_timing 2 (init_world 0 ∅)).
  - intros q. reflexivity.
  - reflexivity.
  - reflexivity.
  - vm_compute. lia.
Defined.

(** ** Steps 3 to 6 make no Drive query *)

Section Offline.

Variable env : Env.
Variable P : Event -> Prop.

Lemma offline_subprocess_run script child :
  P (EvSubprocess script) -> offline P (subprocess_run script child).
Proof.
  intros HP. apply offline_one with (e := EvSubprocess script); [exact HP|].
  intros w. unfold subprocess_run. destruct (child (disk w)).1; auto.
Qed.

Lemma offline_makedirs path : P (EvMakedirs path) -> offline P (makedirs path).
Proof.
  intros HP. apply offline_one with (e := EvMakedirs path); [exact HP|].
  intros w. unfold makedirs. destruct (disk w !! path); auto.
Qed.

Lemma offline_path_exists p : offline P (path_exists p).
Proof. apply offline_none. reflexivity. Qed.

Lemma offline_dir_exists folder : offline P (dir_exists folder).
Proof. apply offline_none. reflexivity. Qed.

Lemma offline_listdir folder : offline P (listdir folder).
Proof.
  apply offline_none. intros w. unfold listdir.
  destruct (disk w !! folder); reflexivity.
Qed.

Lemma offline_write_file p data : P (EvWrite p) -> offline P (write_file p data).
Proof.
  intros HP. apply offline_one with (e := EvWrite p); [exact HP|].
  intros w. unfold write_file.
  destruct (disk w !! p.1) as [dir|]; [|auto].
  destruct (dir !! p.2) as [[]|]; auto.
Qed.

Lemma offline_log e : P e -> offline P (log e).
Proof.
  intros HP. apply offline_one with (e := e); [exact HP|]. intros w. auto.
Qed.

Lemma offline_GetContentFile f p :
  P (EvDownload (title f)) -> P (EvWrite p) -> offline P (GetContentFile f p).
Proof.
  intros Hd Hw. unfold GetContentFile. apply offline_bind.
  - apply offline_log. exact Hd.
  - intros _. destruct (content f).
    + apply offline_write_file. exact Hw.
    + apply offline_raise.
Qed.

Lemma offline_os_rename src dst :
  P (EvRename src dst) -> offline P (os_rename env src dst).
Proof.
  intros HP. apply offline_one with (e := EvRename src dst); [exact HP|].
  intros w. unfold os_rename.
  destruct (lookup_path (disk w) src); [|auto].
  destruct (rename_refused env (disk w) src dst); [auto|].
  destruct (disk w !! dst.1); [|auto].
  destruct (rename_check _ _); auto.
Qed.

End Offline.

Lemma organize_outputs_result env w out w' :
  organize_outputs env w = (Ok out, w') ->
  out = (final_dir_of (timestamp env), timestamp env).
Proof.
  unfold organize_outputs. intros H.
  apply bind_Ok_inv in H as (_ & w1 & _ & H).
  apply bind_Ok_inv in H as (_ & w2 & _ & H).
  apply bind_Ok_inv in H as (_ & w3 & _ & H).
  unfold ret in H. congruence.
Qed.

Lemma offline_steps_3_to_6 env files :
  offline (late_event env) (steps_3_to_6 env files).
Proof.
  unfold steps_3_to_6. apply offline_bind.
  { unfold download_files. apply offline_bind.
    - apply offline_makedirs. exact I.
    - intros _. apply offline_for_each. intros f. unfold download_one.
      apply offline_bind; [apply offline_path_exists|].
      intros []; simpl; [apply offline_ret|].
      apply offline_GetContentFile; simpl; auto. }
  intros _. apply offline_bind.
  { apply offline_subprocess_run. reflexivity. }
  intros _. apply offline_bind_result.
  { unfold organize_outputs. apply offline_bind.
    - apply offline_makedirs. exact I.
    - intros _. apply offline_bind; [apply offline_makedirs; exact I|].
      intros _. apply offline_bind; [|intros _; apply offline_ret].
      unfold move_files. apply offline_for_each. intros folder.
      unfold move_folder. apply offline_bind; [apply offline_dir_exists|].
      intros []; [|apply offline_ret].
      apply offline_bind; [apply offline_listdir|].
      intros names. apply offline_for_each. intros f.
      apply offline_os_rename. exact I. }
  intros out (w & w1 & E). apply organize_outputs_result in E. subst out.
  unfold write_summary. apply offline_write_file. simpl. auto.
Qed.

Lemma late_event_not_query env e : late_event env e -> is_query e = false.
Proof. destruct e; simpl; intros H; (reflexivity || contradiction). Qed.

Lemma steps_3_to_6_no_query env files w :
  queries (steps_3_to_6 env files w).2 = queries w /\
  remote_queries (trace (steps_3_to_6 env files w).2) = remote_queries (trace w).
Proof.
  destruct (offline_steps_3_to_6 env files w) as (Hq & tr & Ht & Hall).
  split; [exact Hq|]. rewrite Ht. unfold remote_queries. rewrite count_app.
  rewrite (count_zero is_query tr); [lia|].
  eapply Forall_impl; [exact Hall|]. apply late_event_not_query.
Qed.

(** ** The claims about the folder lookup and the snapshot *)

Lemma folder_query_none name drive :
  (forall it, it ∈ drive -> title it = name -> mimeType it = FOLDER_MIME ->
              trashed it = true) ->
  folder_query name drive = [].
Proof.
  intros H. unfold folder_query.
  destruct (filter _ drive) as [|x l] eqn:E; [reflexivity|].
  assert (Hx : x ∈ x :: l) by left. rewrite <- E in Hx.
  apply list_elem_of_filter in Hx as [(Ht & Hm & Hf) Hin].
  specialize (H x Hin Ht Hm). congruence.
Qed.

Lemma poll_loop_missing env tm fuel start w :
  (clock w - start < MAX_WAIT tm)%Z ->
  folder_query EXPORT_FOLDER (drive_at env (queries w)) = [] ->
  poll_loop env tm (S fuel) start w =
    (Raise (FolderNotFound EXPORT_FOLDER),
     {| clock := (clock w + Z.of_N (query_delay env (queries w)))%Z;
        disk := disk w;
        queries := S (queries w);
        trace := trace w ++ [EvFolderQuery EXPORT_FOLDER] |}).
Proof.
  intros Hw Hq. simpl. unfold bind at 1, time_time.
  destruct (Z.ltb_spec (clock w - start) (MAX_WAIT tm)); [|lia].
  unfold bind. rewrite (list_drive_files_missing env w Hq). reflexivity.
Qed.

(** C7.  If no folder of the Drive that is not in the trash carries the
    configured name (no such folder at all, or only trashed ones), the
    run ends in the "Drive folder not found" exception (the
    specification's ContainerNotFoundError) at the first folder query:
    the trace holds no sleep and no download, and the disk is the one the
    export script left. *)
Theorem missing_folder_fails_before_polling env tm fuel t0 d0 :
  (export_script env d0).1 = true -> auth_ok env = true ->
  (0 < MAX_WAIT tm)%Z -> 0 < fuel ->
  (forall it, it ∈ drive_at env 0 -> title it = EXPORT_FOLDER ->
              mimeType it = FOLDER_MIME -> trashed it = true) ->
  let r := run_pipeline env tm fuel (init_world t0 d0) in
  r.1 = Raise (FolderNotFound EXPORT_FOLDER) /\
  trace r.2 = [EvSubprocess EXPORT_SCRIPT; EvAuth; EvFolderQuery EXPORT_FOLDER] /\
  sleeps (trace r.2) = 0 /\ downloads (trace r.2) = 0 /\
  disk r.2 = (export_script env d0).2.
Proof.
  intros He Ha Hmax Hfuel Hnone r. subst r.
  rewrite (run_pipeline_polling env tm fuel t0 d0 He Ha).
  destruct fuel as [|fuel]; [lia|].
  assert (E : wait_for_exports env tm (S fuel) (polling_start env t0 d0) =
              (Raise (FolderNotFound EXPORT_FOLDER),
               {| clock := (t0 + Z.of_N (query_delay env 0))%Z;
                  disk := (export_script env d0).2;
                  queries := 1;
                  trace := [EvSubprocess EXPORT_SCRIPT; EvAuth;
                            EvFolderQuery EXPORT_FOLDER] |})).
  { rewrite wait_for_exports_unfold.
    rewrite poll_loop_missing; [reflexivity | simpl; lia |].
    apply folder_query_none. exact Hnone. }
  rewrite (bind_Raise_step _ _ _ _ _ E). simpl. auto.
Qed.

Lemma missing_folder_fails_before_polling_witness :
  let env := sample_env
               (fun _ => [ {| item_id := "T"; title := EXPORT_FOLDER;
                              mimeType := FOLDER_MIME; trashed := true;
                              parents := []; content := None |} ])
               (fun _ => 2%N) never_refuse in
  let r := run_pipeline env source_timing 24 (init_world 0 ∅) in
  r.1 = Raise (FolderNotFound EXPORT_FOLDER) /\
  trace r.2 = [EvSubprocess EXPORT_SCRIPT; EvAuth; EvFolderQuery EXPORT_FOLDER] /\
  sleeps (trace r.2) = 0 /\ downloads (trace r.2) = 0 /\
  disk r.2 = (export_script env ∅).2.
Proof.
  intros env.
  apply (missing_folder_fails_before_polling env source_timing 24 0%Z ∅).
  - reflexivity.
  - reflexivity.
  - reflexivity.
  - lia.
  - intros it Hin _ _. apply list_elem_of_singleton in Hin. subst it. reflexivity.
Defined.

(** The folder is looked up again on every attempt: when it is there for
    the first attempt and gone for the second, the same exception comes
    after one sleep. *)
Example folder_lost_between_attempts :
  let env := sample_env vanishing_drive (fun _ => 0%N) never_refuse in
  let r := run_pipeline env source_timing 24 (init_world 0 ∅) in
  r.1 = Raise (FolderNotFound EXPORT_FOLDER) /\
  poll_attempts (trace r.2) = 2 /\ sleeps (trace r.2) = 1.
Proof. vm_compute. repeat split. Qed.

Lemma elapsed_before_shift env tm q0 k :
  elapsed_before env tm q0 (S k) =
    (Z.of_N (query_delay env q0) + Z.of_N (query_delay env (S q0))
     + WAIT_TIME tm + Z.of_N (oversleep env (S (S q0)))
     + elapsed_before env tm (S (S q0)) k)%Z.
Proof.
  induction k as [|k IH].
  - cbn [elapsed_before]. rewrite Nat.mul_0_r, Nat.add_0_r.
    replace (q0 + 1) with (S q0) by lia. replace (q0 + 2) with (S (S q0)) by lia.
    lia.
  - change (elapsed_before env tm q0 (S (S k))) with
      (elapsed_before env tm q0 (S k)
       + Z.of_N (query_delay env (q0 + 2 * S k))
       + Z.of_N (query_delay env (q0 + 2 * S k + 1))
       + WAIT_TIME tm
       + Z.of_N (oversleep env (q0 + 2 * S k + 2)))%Z.
    rewrite IH. cbn [elapsed_before].
    replace (q0 + 2 * S k) with (S (S q0) + 2 * k) by lia. lia.
Qed.

Lemma poll_loop_finds env tm k : forall fuel w start files,
  (0 <= WAIT_TIME tm)%Z -> k < fuel ->
  (forall i, i < k -> listing env (queries w + 2 * i) = Some []) ->
  listing env (queries w + 2 * k) = Some files -> files <> [] ->
  (clock w - start + elapsed_before env tm (queries w) k < MAX_WAIT tm)%Z ->
  exists w' tr,
    poll_loop env tm fuel start w = (Ok (Some files), w') /\
    disk w' = disk w /\
    queries w' = queries w + 2 * (k + 1) /\
    trace w' = trace w ++ tr /\
    remote_queries tr = 2 * (k + 1) /\
    poll_attempts tr = k + 1 /\
    sleeps tr = k /\
    exists fid, last tr = Some (EvChildrenQuery fid).
Proof.
  induction k as [|k IH]; intros fuel w start files Hs Hfuel Hempty Hl Hne Hin.
  - destruct fuel as [|fuel]; [lia|].
    rewrite Nat.mul_0_r, Nat.add_0_r in Hl. cbn [elapsed_before] in Hin.
    rewrite (poll_loop_found env tm fuel start w files ltac:(lia) Hl Hne).
    destruct (list_drive_files_listing env w files Hl)
      as (w1 & E & _ & Hd & Hq & fid & Ht).
    rewrite E. exists w1, [EvFolderQuery EXPORT_FOLDER; EvChildrenQuery fid].
    simpl. repeat split; auto; try lia. exists fid. reflexivity.
  - destruct fuel as [|fuel]; [lia|].
    pose proof (Hempty 0 ltac:(lia)) as H0.
    rewrite Nat.mul_0_r, Nat.add_0_r in H0.
    pose proof (elapsed_before_ge env tm (queries w) (S k) Hs) as Hge.
    rewrite (poll_loop_pass env tm fuel start w ltac:(nia) Hs H0).
    destruct (pass_spec env tm w Hs H0) as (Hc & Hd & Hq & fid0 & Ht).
    rewrite elapsed_before_shift in Hin.
    destruct (IH fuel (pass env tm w) start files Hs ltac:(lia))
      as (w' & tr & E & Hd' & Hq' & Ht' & Hr & Ha & Hsl & fid & Hlast).
    + intros i Hi. rewrite Hq.
      replace (S (S (queries w)) + 2 * i) with (queries w + 2 * S i) by lia.
      apply Hempty. lia.
    + rewrite Hq.
      replace (S (S (queries w)) + 2 * k) with (queries w + 2 * S k) by lia.
      exact Hl.
    + exact Hne.
    + rewrite Hq, Hc. lia.
    + exists w', ([EvFolderQuery EXPORT_FOLDER; EvChildrenQuery fid0;
                   EvSleep (WAIT_TIME tm)] ++ tr).
      split; [exact E|]. split; [congruence|]. split; [lia|].
      split; [rewrite Ht', Ht, <- app_assoc; reflexivity|].
      unfold remote_queries, poll_attempts, sleeps in *.
      rewrite !count_app, Hr, Ha, Hsl.
      split; [cbn; lia|]. split; [cbn; lia|]. split; [cbn; lia|].
      exists fid. rewrite last_app, Hlast. reflexivity.
Qed.

(** C4.  Let attempt [k] be the first whose listing is not empty, and let
    it start inside the window.  Then the polling step returns exactly
    that listing; it has made the two queries of each of the [k + 1]
    attempts and no other, the last thing it did being the children
    query that produced the listing; and the rest of the run makes no
    Drive query, so what is added to the folder later is not seen. *)
Theorem first_nonempty_listing_is_the_snapshot env tm fuel k files w :
  (0 <= WAIT_TIME tm)%Z -> k < fuel ->
  (forall i, i < k -> listing env (queries w + 2 * i) = Some []) ->
  listing env (queries w + 2 * k) = Some files -> files <> [] ->
  (elapsed_before env tm (queries w) k < MAX_WAIT tm)%Z ->
  exists w' tr,
    wait_for_exports env tm fuel w = (Ok files, w') /\
    queries w' = queries w + 2 * (k + 1) /\
    trace w' = trace w ++ tr /\
    remote_queries tr = 2 * (k + 1) /\
    poll_attempts tr = k + 1 /\
    sleeps tr = k /\
    (exists fid, last tr = Some (EvChildrenQuery fid)) /\
    queries (steps_3_to_6 env files w').2 = queries w' /\
    remote_queries (trace (steps_3_to_6 env files w').2)
      = remote_queries (trace w').
Proof.
  intros Hs Hfuel Hempty Hl Hne Hin.
  destruct (poll_loop_finds env tm k fuel w (clock w) files Hs Hfuel Hempty Hl Hne
              ltac:(lia))
    as (w' & tr & E & _ & Hq & Ht & Hr & Ha & Hsl & Hlast).
  exists w', tr. rewrite wait_for_exports_unfold, E.
  split; [reflexivity|]. split; [exact Hq|]. split; [exact Ht|].
  split; [exact Hr|]. split; [exact Ha|]. split; [exact Hsl|].
  split; [exact Hlast|]. apply steps_3_to_6_no_query.
Qed.

Lemma first_nonempty_listing_is_the_snapshot_witness :
  let env := sample_env late_drive (fun _ => 1%N) never_refuse in
  let files := [sample_file "a.tif"; sample_file "b.tif"; sample_file "c.tif"] in
  let w := init_world 0 ∅ in
  exists w' tr,
    wait_for_exports env source_timing 24 w = (Ok files, w') /\
    queries w' = queries w + 2 * (1 + 1) /\
    trace w' = trace w ++ tr /\
    remote_queries tr = 2 * (1 + 1) /\
    poll_attempts tr = 1 + 1 /\
    sleeps tr = 1 /\
    (exists fid, last tr = Some (EvChildrenQuery fid)) /\
    queries (steps_3_to_6 env files w').2 = queries w' /\
    remote_queries (trace (steps_3_to_6 env files w').2)
      = remote_queries (trace w').
Proof.
  intros env files w.
  apply (first_nonempty_listing_is_the_snapshot env source_timing 24 1 files w).
  - vm_compute. discriminate.
  - lia.
  - intros i Hi. assert (i = 0) as -> by lia. reflexivity.
  - reflexivity.
  - discriminate.
  - reflexivity.
Defined.

(** ** The local disk *)

Lemma lookup_path_place_eq (d : FS) p n :
  is_Some (d !! p.1) -> lookup_path (place_entry p n d) p = Some n.
Proof.
  intros [dir Hdir]. unfold lookup_path, place_entry.
  rewrite lookup_alter_eq, Hdir. simpl. apply lookup_insert_eq.
Qed.

Lemma lookup_path_place_ne (d : FS) p p' n :
  p <> p' -> lookup_path (place_entry p n d) p' = lookup_path d p'.
Proof.
  intros Hne. unfold lookup_path, place_entry.
  destruct (decide (p.1 = p'.1)) as [E|E].
  - rewrite E, lookup_alter_eq. destruct (d !! p'.1) as [dir|]; simpl; [|reflexivity].
    apply lookup_insert_ne. intros E2. apply Hne.
    destruct p, p'; simpl in *; congruence.
  - rewrite lookup_alter_ne by exact E. reflexivity.
Qed.

Lemma lookup_path_remove_ne (d : FS) p p' :
  p <> p' -> lookup_path (remove_entry p d) p' = lookup_path d p'.
Proof.
  intros Hne. unfold lookup_path, remove_entry.
  destruct (decide (p.1 = p'.1)) as [E|E].
  - rewrite E, lookup_alter_eq. destruct (d !! p'.1) as [dir|]; simpl; [|reflexivity].
    apply lookup_delete_ne. intros E2. apply Hne.
    destruct p, p'; simpl in *; congruence.
  - rewrite lookup_alter_ne by exact E. reflexivity.
Qed.

Lemma place_entry_dir (d : FS) p n folder :
  is_Some (place_entry p n d !! folder) <-> is_Some (d !! folder).
Proof.
  unfold place_entry. destruct (decide (p.1 = folder)) as [<-|E].
  - rewrite lookup_alter_eq. destruct (d !! p.1); simpl; split; intros [? ?]; eauto; discriminate.
  - rewrite lookup_alter_ne by exact E. reflexivity.
Qed.

Lemma write_file_Ok p data w w' :
  write_file p data w = (Ok tt, w') ->
  is_Some (disk w !! p.1) /\
  disk w' = place_entry p (File data) (disk w) /\
  queries w' = queries w /\
  trace w' = trace w ++ [EvWrite p].
Proof.
  unfold write_file. destruct (disk w !! p.1) as [dir|]; [|discriminate].
  destruct (dir !! p.2) as [[]|]; intros [= <-]; simpl; eauto.
Qed.

(** ** Step 3: the downloads *)

Lemma download_one_present f w :
  is_Some (lookup_path (disk w) (entry LOCAL_EXPORTS (title f))) ->
  download_one f w = (Ok tt, w).
Proof.
  intros H. unfold download_one, bind, path_exists.
  rewrite bool_decide_eq_true_2 by exact H. reflexivity.
Qed.

Lemma download_one_Ok f w w1 :
  download_one f w = (Ok tt, w1) ->
  (is_Some (lookup_path (disk w) (entry LOCAL_EXPORTS (title f))) /\ w1 = w) \/
  (lookup_path (disk w) (entry LOCAL_EXPORTS (title f)) = None /\
   is_Some (disk w !! LOCAL_EXPORTS) /\
   exists data,
     content f = Some data /\
     disk w1 = place_entry (entry LOCAL_EXPORTS (title f)) (File data) (disk w) /\
     trace w1 = trace w ++ [EvDownload (title f);
                            EvWrite (entry LOCAL_EXPORTS (title f))]).
Proof.
  unfold download_one, bind at 1, path_exists.
  destruct (bool_decide_reflect
              (is_Some (lookup_path (disk w) (entry LOCAL_EXPORTS (title f)))))
    as [Hy|Hn]; simpl.
  - intros [= <-]. left. auto.
  - unfold GetContentFile, bind, log.
    destruct (content f) as [data|]; [|discriminate].
    intros H. apply write_file_Ok in H as (Hdir & Hd & _ & Ht).
    right. split; [destruct (lookup_path _ _) eqn:E; [exfalso; eauto | reflexivity]|].
    split; [exact Hdir|]. exists data. split; [reflexivity|].
    split; [exact Hd|]. rewrite Ht. simpl. rewrite <- app_assoc. reflexivity.
Qed.

Lemma fetch_loop_Ok files : forall w w1,
  for_each files download_one w = (Ok tt, w1) ->
  (forall f, f ∈ files ->
     is_Some (lookup_path (disk w1) (entry LOCAL_EXPORTS (title f)))) /\
  (forall p n, lookup_path (disk w) p = Some n ->
               lookup_path (disk w1) p = Some n) /\
  (forall folder, is_Some (disk w !! folder) -> is_Some (disk w1 !! folder)) /\
  downloads (trace w1) <= downloads (trace w) + length files /\
  (NoDup (map title files) ->
   (forall f, f ∈ files ->
      lookup_path (disk w) (entry LOCAL_EXPORTS (title f)) = None) ->
   downloads (trace w1) = downloads (trace w) + length files).
Proof.
  induction files as [|f files IH]; intros w w1 H.
  - simpl in H. injection H as <-. simpl.
    split; [intros f Hf; inversion Hf|]. split; [auto|]. split; [auto|].
    split; [lia | intros; lia].
  - simpl in H. apply bind_Ok_inv in H as ([] & wm & H1 & H2).
    destruct (IH wm w1 H2) as (Hall & Hkeep & Hdir & Hle & Heq).
    assert (Hstep :
      (forall p n, lookup_path (disk w) p = Some n ->
                   lookup_path (disk wm) p = Some n) /\
      (forall folder, is_Some (disk w !! folder) -> is_Some (disk wm !! folder)) /\
      is_Some (lookup_path (disk wm) (entry LOCAL_EXPORTS (title f))) /\
      downloads (trace wm) <= downloads (trace w) + 1 /\
      (lookup_path (disk w) (entry LOCAL_EXPORTS (title f)) = None ->
       downloads (trace wm) = downloads (trace w) + 1 /\
       forall p, p <> entry LOCAL_EXPORTS (title f) ->
                 lookup_path (disk wm) p = lookup_path (disk w) p)).
    { apply download_one_Ok in H1 as [[Hy ->]|(Hn & Hd & data & _ & Hdisk & Ht)].
      - split; [auto|]. split; [auto|]. split; [exact Hy|]. split; [lia|].
        intros Hn. destruct Hy as [? Hy]. congruence.
      - rewrite Hdisk, Ht. unfold downloads. rewrite count_app.
        change (count is_download
                  [EvDownload (title f); EvWrite (entry LOCAL_EXPORTS (title f))])
          with 1.
        split.
        { intros p n Hp. rewrite lookup_path_place_ne; [exact Hp|].
          intros <-. congruence. }
        split.
        { intros folder Hf. apply place_entry_dir. exact Hf. }
        split.
        { rewrite lookup_path_place_eq by exact Hd. eauto. }
        split; [lia|]. intros _. split; [lia|].
        intros p Hp. apply lookup_path_place_ne. congruence. }
    destruct Hstep as (Hkeep1 & Hdir1 & Hf & Hle1 & Heq1).
    split.
    { intros g Hg. apply elem_of_cons in Hg as [->|Hg]; [|auto].
      destruct Hf as [n Hn]. exists n. apply Hkeep. exact Hn. }
    split; [auto|]. split; [auto|]. split; [simpl; lia|].
    intros Hnd Hnone. simpl in Hnd. apply NoDup_cons in Hnd as [Hnotin Hnd].
    destruct (Heq1 (Hnone f ltac:(left))) as [Hd1 Hsame].
    rewrite Heq; [simpl; lia | exact Hnd |].
    intros g Hg. rewrite Hsame; [apply Hnone; right; exact Hg|].
    unfold entry. intros [= Et]. apply Hnotin. rewrite <- Et.
    apply list_elem_of_fmap. exists g. auto.
Qed.

Lemma fetch_loop_again files : forall w,
  (forall f, f ∈ files ->
     is_Some (lookup_path (disk w) (entry LOCAL_EXPORTS (title f)))) ->
  for_each files download_one w = (Ok tt, w).
Proof.
  induction files as [|f files IH]; intros w H; [reflexivity|].
  simpl. rewrite (bind_Ok_step _ _ _ tt w).
  - apply IH. intros g Hg. apply H. right. exact Hg.
  - apply download_one_present. apply H. left.
Qed.

Lemma makedirs_spec path w :
  exists wm,
    makedirs path w = (Ok tt, wm) /\
    is_Some (disk wm !! path) /\
    (forall p, lookup_path (disk wm) p = lookup_path (disk w) p) /\
    (forall folder, is_Some (disk w !! folder) -> disk wm !! folder = disk w !! folder) /\
    (forall folder, folder <> path -> disk wm !! folder = disk w !! folder) /\
    (disk w !! path = None -> disk wm !! path = Some ∅) /\
    queries wm = queries w /\
    trace wm = trace w ++ [EvMakedirs path].
Proof.
  unfold makedirs. destruct (disk w !! path) as [dir|] eqn:E.
  - eexists. split; [reflexivity|]. simpl. rewrite E.
    repeat split; eauto. discriminate.
  - eexists. split; [reflexivity|]. simpl.
    split; [rewrite lookup_insert_eq; eauto|].
    split.
    { intros p. unfold lookup_path. destruct (decide (path = p.1)) as [<-|Hne].
      - rewrite lookup_insert_eq, E. apply lookup_empty.
      - rewrite lookup_insert_ne by exact Hne. reflexivity. }
    split.
    { intros folder Hf. apply lookup_insert_ne. intros <-.
      rewrite E in Hf. destruct Hf; discriminate. }
    split.
    { intros folder Hf. apply lookup_insert_ne. congruence. }
    split; [intros _; apply lookup_insert_eq|]. split; reflexivity.
Qed.

(** C2, as stated, fails: the count of downloads over two invocations is
    not one per entry when a file is already in the staging directory
    before the first of them.  Here the single entry is skipped twice. *)
Lemma fetch_twice_may_download_nothing :
  let files := [sample_file "a.tif"] in
  let r1 := download_files files (init_world 0 staged_disk) in
  let r2 := download_files files r1.2 in
  r1.1 = Ok tt /\ r2.1 = Ok tt /\
  length files = 1 /\ downloads (trace r2.2) = 0 /\
  downloads (trace r2.2) <> length files.
Proof. vm_compute. repeat split. discriminate. Qed.

(** On an empty disk the first invocation downloads each of the two
    entries once and the second downloads nothing. *)
Example fetch_twice_on_an_empty_disk :
  let files := [sample_file "a.tif"; sample_file "b.tif"] in
  let r1 := download_files files (init_world 0 ∅) in
  let r2 := download_files files r1.2 in
  r1.1 = Ok tt /\ downloads (trace r1.2) = 2 /\
  r2.1 = Ok tt /\ downloads (trace r2.2) = 2 /\ disk r2.2 = disk r1.2.
Proof. vm_compute. repeat split. Qed.

(** Titles that are plain file names, and titles that are not: the
    empty title, a dot component, a title with a directory part, an
    absolute path. *)
Example plain_and_other_titles :
  map plain_title ["a.tif"; "S1_VV_2024-10.tif"; "SUMMARY.txt"]
    = [true; true; true] /\
  map plain_title [""; "."; ".."; "./a.tif"; "sub/a.tif"; "../plots/q.png";
                   "/tmp/x"]
    = [false; false; false; false; false; false; false].
Proof. split; reflexivity. Qed.

(** Two entries of one title on an empty disk: one download, of the
    first of them. *)
Example fetch_of_twins_downloads_once :
  let r := download_files twin_files (init_world 0 ∅) in
  r.1 = Ok tt /\ length twin_files = 2 /\
  missing_titles ∅ twin_files = ["a.tif"] /\
  downloads (trace r.2) = 1 /\ downloads_of "a.tif" (trace r.2) = 1 /\
  lookup_path (disk r.2) (entry LOCAL_EXPORTS "a.tif") = Some (File "first bytes").
Proof. vm_compute. repeat split. Qed.

(** *** The count of downloads, title by title *)

Lemma elem_of_missing_titles d files t :
  t ∈ missing_titles d files <->
  t ∈ map title files /\ lookup_path d (entry LOCAL_EXPORTS t) = None.
Proof.
  unfold missing_titles. rewrite list_elem_of_filter, elem_of_remove_dups.
  tauto.
Qed.

Lemma NoDup_missing_titles d files : NoDup (missing_titles d files).
Proof. apply NoDup_filter, NoDup_remove_dups. Qed.

Lemma downloads_of_app t (a b : list Event) :
  downloads_of t (a ++ b) = downloads_of t a + downloads_of t b.
Proof. apply count_app. Qed.

(** One step of the loop of step 3, on the titles still to fetch. *)
Lemma missing_titles_step f files w w1 :
  download_one f w = (Ok tt, w1) ->
  exists k,
    (k = 0 \/ k = 1) /\
    (forall t, downloads_of t (trace w1) =
               downloads_of t (trace w) +
               (if decide (t = title f) then k else 0)) /\
    downloads (trace w1) = downloads (trace w) + k /\
    (forall t, t ∈ missing_titles (disk w) (f :: files) <->
               (k = 1 /\ t = title f) \/ t ∈ missing_titles (disk w1) files) /\
    (title f ∉ missing_titles (disk w1) files).
Proof.
  intros H.
  apply download_one_Ok in H as [[Hy ->]|(Hn & Hd & data & _ & Hdisk & Ht)].
  - exists 0. split; [auto|]. split.
    { intros t. destruct (decide (t = title f)); lia. }
    split; [lia|]. split.
    + intros t. rewrite !elem_of_missing_titles. simpl.
      rewrite elem_of_cons. split.
      * intros [[->|Hin] Hnone]; [|auto].
        destruct Hy as [n Hy]. congruence.
      * intros [[? _]|[Hin Hnone]]; [lia|auto].
    + rewrite elem_of_missing_titles. intros [_ Hnone].
      destruct Hy as [n Hy]. congruence.
  - exists 1. split; [auto|]. split.
    { intros t. rewrite Ht, downloads_of_app. f_equal.
      unfold downloads_of, count. simpl.
      destruct (decide (t = title f)) as [->|Hne].
      - rewrite String.eqb_refl. reflexivity.
      - destruct (String.eqb_spec (title f) t); [congruence | reflexivity]. }
    split.
    { rewrite Ht. unfold downloads. rewrite count_app. reflexivity. }
    assert (Hnew : forall t,
              lookup_path (disk w1) (entry LOCAL_EXPORTS t) = None <->
              t <> title f /\ lookup_path (disk w) (entry LOCAL_EXPORTS t) = None).
    { intros t. rewrite Hdisk. destruct (decide (t = title f)) as [->|Hne].
      - rewrite lookup_path_place_eq by exact Hd. split; [discriminate|tauto].
      - rewrite lookup_path_place_ne by (unfold entry; congruence). tauto. }
    split.
    + intros t. rewrite !elem_of_missing_titles. simpl.
      rewrite elem_of_cons, Hnew.
      destruct (decide (t = title f)) as [->|Hne]; [tauto|]. tauto.
    + rewrite elem_of_missing_titles, Hnew. tauto.
Qed.

Lemma fetch_loop_counts files : forall w w1,
  for_each files download_one w = (Ok tt, w1) ->
  (forall t,
     downloads_of t (trace w1) =
       downloads_of t (trace w) +
       (if decide (t ∈ missing_titles (disk w) files) then 1 else 0)) /\
  downloads (trace w1) =
    downloads (trace w) + length (missing_titles (disk w) files).
Proof.
  induction files as [|f files IH]; intros w w1 H.
  - simpl in H. injection H as <-. split.
    + intros t. rewrite decide_False; [lia|].
      rewrite elem_of_missing_titles. simpl. intros [Hin _]. inversion Hin.
    + unfold missing_titles. simpl. lia.
  - simpl in H. apply bind_Ok_inv in H as ([] & wm & H1 & H2).
    destruct (IH wm w1 H2) as (Hper & Htot).
    destruct (missing_titles_step f files w wm H1)
      as (k & Hk & Hper1 & Htot1 & Hmem & Hnot).
    split.
    + intros t. rewrite Hper, Hper1. pose proof (Hmem t) as Hmt.
      destruct (decide (t ∈ missing_titles (disk wm) files)) as [Hin|Hin];
        destruct (decide (t = title f)) as [->|Hne];
        destruct (decide (_ ∈ missing_titles (disk w) (f :: files))) as [Hm|Hm];
        destruct Hk as [->| ->]; try lia; exfalso; intuition (lia || auto).
    + rewrite Htot, Htot1, <- Nat.add_assoc. f_equal.
      destruct Hk as [->| ->].
      * apply Permutation_length, NoDup_Permutation;
          [apply NoDup_missing_titles.. |].
        intros t. rewrite Hmem. split; [auto|]. intros [[? _]|?]; [lia|auto].
      * change (1 + length (missing_titles (disk wm) files))
          with (length (title f :: missing_titles (disk wm) files)).
        symmetry. apply Permutation_length, NoDup_Permutation.
        { apply NoDup_missing_titles. }
        { apply NoDup_cons. split; [exact Hnot | apply NoDup_missing_titles]. }
        intros t. rewrite Hmem, elem_of_cons. tauto.
Qed.

(** C2, amended.  For entries whose titles are plain file names: when a
    first invocation of the fetch step completes, a second one with the
    same entries makes its [os.makedirs] call and nothing else, so it
    downloads nothing and leaves the disk as it is; over both
    invocations a title is downloaded exactly once if it is a title of
    the listing and had no file in the staging directory before the
    first invocation, and not at all otherwise, so that the downloads
    are as many as there are such titles (one per entry when the titles
    are pairwise different and none of them is staged, none when all
    are staged); no entry present before the first invocation is
    overwritten, and every entry of the listing has its local file
    afterwards. *)
Theorem fetch_twice_downloads_once files w w1 :
  plain_titles files ->
  download_files files w = (Ok tt, w1) ->
  (exists w2,
     download_files files w1 = (Ok tt, w2) /\
     disk w2 = disk w1 /\
     trace w2 = trace w1 ++ [EvMakedirs LOCAL_EXPORTS] /\
     (forall t,
        downloads_of t (trace w2) =
          downloads_of t (trace w) +
          (if decide (t ∈ missing_titles (disk w) files) then 1 else 0)) /\
     downloads (trace w2) =
       downloads (trace w) + length (missing_titles (disk w) files)) /\
  (forall p n, lookup_path (disk w) p = Some n ->
               lookup_path (disk w1) p = Some n) /\
  (forall f, f ∈ files ->
     is_Some (lookup_path (disk w1) (entry LOCAL_EXPORTS (title f)))).
Proof.
  unfold download_files. intros _ H.
  apply bind_Ok_inv in H as ([] & wm & Hm & Hloop).
  destruct (makedirs_spec LOCAL_EXPORTS w)
    as (wm' & Em & Hdir & Hsame & _ & _ & _ & _ & Ht).
  rewrite Em in Hm. injection Hm as ->.
  destruct (fetch_loop_Ok files wm w1 Hloop) as (Hall & Hkeep & Hdirs & _ & _).
  destruct (fetch_loop_counts files wm w1 Hloop) as (Hper & Htot).
  assert (Hmiss : missing_titles (disk wm) files = missing_titles (disk w) files).
  { unfold missing_titles. apply list_filter_iff. intros t. rewrite Hsame. tauto. }
  rewrite Hmiss in Hper, Htot.
  split; [|split; [|exact Hall]].
  - destruct (makedirs_spec LOCAL_EXPORTS w1)
      as (w2 & E2 & _ & _ & Hsame2 & Hother2 & _ & _ & Ht2).
    assert (Hd2 : disk w2 = disk w1).
    { apply map_eq. intros folder.
      destruct (decide (folder = LOCAL_EXPORTS)) as [->|Hne].
      - apply Hsame2. apply Hdirs. exact Hdir.
      - apply Hother2. exact Hne. }
    exists w2. rewrite (bind_Ok_step _ _ _ _ _ E2).
    split; [|split; [exact Hd2|split; [exact Ht2|split]]].
    + apply fetch_loop_again. intros f Hf. rewrite Hd2. apply Hall. exact Hf.
    + intros t. rewrite Ht2, downloads_of_app, Hper, Ht, downloads_of_app.
      unfold downloads_of, count. simpl. lia.
    + rewrite Ht2. unfold downloads at 1. rewrite count_app.
      fold (downloads (trace w1)). rewrite Htot, Ht.
      unfold downloads. rewrite count_app. unfold count. simpl. lia.
  - intros p n Hp. apply Hkeep. rewrite Hsame. exact Hp.
Qed.

Lemma fetch_twice_downloads_once_witness :
  let files := [sample_file "a.tif"; sample_file "b.tif"] in
  let w := init_world 0 staged_disk in
  let w1 := (download_files files w).2 in
  missing_titles (disk w) files = ["b.tif"] /\
  (exists w2,
     download_files files w1 = (Ok tt, w2) /\
     disk w2 = disk w1 /\
     trace w2 = trace w1 ++ [EvMakedirs LOCAL_EXPORTS] /\
     (forall t,
        downloads_of t (trace w2) =
          downloads_of t (trace w) +
          (if decide (t ∈ missing_titles (disk w) files) then 1 else 0)) /\
     downloads (trace w2) =
       downloads (trace w) + length (missing_titles (disk w) files)) /\
  (forall p n, lookup_path (disk w) p = Some n ->
               lookup_path (disk w1) p = Some n) /\
  (forall f, f ∈ files ->
     is_Some (lookup_path (disk w1) (entry LOCAL_EXPORTS (title f)))).
Proof.
  intros files w w1. split; [vm_compute; reflexivity|].
  apply (fetch_twice_downloads_once files w w1).
  - repeat constructor.
  - vm_compute. reflexivity.
Defined.

(** ** Step 5: the moves *)

Lemma os_rename_Ok env src dst w w' :
  os_rename env src dst w = (Ok tt, w') ->
  exists n,
    lookup_path (disk w) src = Some n /\
    rename_refused env (disk w) src dst = false /\
    is_Some (disk w !! dst.1) /\
    rename_check n (lookup_path (disk w) dst) = None /\
    disk w' = place_entry dst n (remove_entry src (disk w)).
Proof.
  unfold os_rename. destruct (lookup_path (disk w) src) as [n|]; [|discriminate].
  destruct (rename_refused env (disk w) src dst); [discriminate|].
  destruct (disk w !! dst.1) as [dir|] eqn:Ed; [|discriminate].
  destruct (rename_check n (lookup_path (disk w) dst)) eqn:Ec; [discriminate|].
  intros [= <-]. exists n. simpl. eauto 10.
Qed.


(** The disk after one move between two different directories. *)
Lemma moved_disk (d : FS) folder fd a n (m e : gmap string node) :
  folder <> fd -> d !! folder = Some m -> d !! fd = Some e ->
  place_entry (entry fd a) n (remove_entry (entry folder a) d) =
    <[folder := delete a m]> (<[fd := <[a := n]> e]> d).
Proof.
  intros Hne Hm He. unfold place_entry, remove_entry, entry. simpl.
  apply map_eq. intros k.
  destruct (decide (k = folder)) as [->|Hk1].
  - rewrite lookup_insert_eq, lookup_alter_ne by congruence.
    rewrite lookup_alter_eq, Hm. reflexivity.
  - rewrite lookup_insert_ne by congruence.
    destruct (decide (k = fd)) as [->|Hk2].
    + rewrite lookup_insert_eq, lookup_alter_eq, lookup_alter_ne by congruence.
      rewrite He. reflexivity.
    + rewrite lookup_insert_ne by congruence.
      rewrite !lookup_alter_ne by congruence. reflexivity.
Qed.

Lemma reinsert_both (d : FS) folder fd (m1 m2 e1 e2 : gmap string node) :
  folder <> fd ->
  <[folder := m2]> (<[fd := e2]> (<[folder := m1]> (<[fd := e1]> d))) =
  <[folder := m2]> (<[fd := e2]> d).
Proof.
  intros Hne. apply map_eq. intros k.
  destruct (decide (k = folder)) as [->|Hk1].
  - rewrite !lookup_insert_eq. reflexivity.
  - rewrite !(lookup_insert_ne _ folder) by congruence.
    destruct (decide (k = fd)) as [->|Hk2].
    + rewrite !lookup_insert_eq. reflexivity.
    + repeat (rewrite lookup_insert_ne by congruence). reflexivity.
Qed.

Section MoveNames.

Variable env : Env.
Variables folder fd : string.
Hypothesis Hne : folder <> fd.

Lemma move_names_Ok names : forall w w' (m e : gmap string node),
  NoDup names ->
  disk w !! folder = Some m -> disk w !! fd = Some e ->
  for_each names (fun f => os_rename env (entry folder f) (entry fd f)) w
    = (Ok tt, w') ->
  exists m' e' : gmap string node,
    disk w' = <[folder := m']> (<[fd := e']> (disk w)) /\
    (forall x, m' !! x = if decide (x ∈ names) then None else m !! x) /\
    (forall x, e' !! x = if decide (x ∈ names) then m !! x else e !! x).
Proof.
  induction names as [|a names IH]; intros w w' m e Hnd Hm He H.
  - simpl in H. injection H as <-. exists m, e. split.
    + rewrite (insert_id (disk w) fd e He).
      rewrite (insert_id (disk w) folder m Hm). reflexivity.
    + split; intros x; (destruct (decide (x ∈ [])) as [Hin|_];
        [inversion Hin | reflexivity]).
  - simpl in H. apply bind_Ok_inv in H as ([] & w1 & H1 & H2).
    apply NoDup_cons in Hnd as [Hnotin Hnd].
    apply os_rename_Ok in H1 as (n & Hsrc & _ & _ & _ & Hdisk).
    assert (Ha : m !! a = Some n).
    { unfold lookup_path, entry in Hsrc. simpl in Hsrc. rewrite Hm in Hsrc.
      exact Hsrc. }
    rewrite (moved_disk (disk w) folder fd a n m e Hne Hm He) in Hdisk.
    destruct (IH w1 w' (delete a m) (<[a := n]> e) Hnd) as (m' & e' & Hd' & Hm' & He').
    { rewrite Hdisk. apply lookup_insert_eq. }
    { rewrite Hdisk. rewrite lookup_insert_ne by congruence.
      apply lookup_insert_eq. }
    { exact H2. }
    exists m', e'. split.
    + rewrite Hd', Hdisk. apply reinsert_both. exact Hne.
    + split; intros x.
      * rewrite Hm'. destruct (decide (x = a)) as [->|Hxa].
        { rewrite decide_False by exact Hnotin.
          rewrite decide_True by left. apply lookup_delete_eq. }
        { rewrite lookup_delete_ne by congruence.
          destruct (decide (x ∈ names)) as [Hin|Hin].
          - rewrite decide_True by (right; exact Hin). reflexivity.
          - rewrite decide_False; [reflexivity|].
            intros Hc. apply elem_of_cons in Hc as [?|?]; congruence. }
      * rewrite He'. destruct (decide (x = a)) as [->|Hxa].
        { rewrite decide_False by exact Hnotin.
          rewrite decide_True by left. rewrite lookup_insert_eq. congruence. }
        { rewrite lookup_delete_ne, lookup_insert_ne by congruence.
          destruct (decide (x ∈ names)) as [Hin|Hin].
          - rewrite decide_True by (right; exact Hin). reflexivity.
          - rewrite decide_False; [reflexivity|].
            intros Hc. apply elem_of_cons in Hc as [?|?]; congruence. }
Qed.

Lemma elem_of_names (m : gmap string node) x :
  x ∈ map fst (map_to_list m) <-> is_Some (m !! x).
Proof.
  split.
  - intros H. apply list_elem_of_fmap in H as ([k n] & -> & Hin).
    apply elem_of_map_to_list in Hin. simpl. eauto.
  - intros [n Hn]. apply list_elem_of_fmap. exists (x, n).
    split; [reflexivity|]. apply elem_of_map_to_list. exact Hn.
Qed.

Lemma move_folder_Ok w w' (e : gmap string node) :
  disk w !! fd = Some e ->
  move_folder env fd folder w = (Ok tt, w') ->
  match disk w !! folder with
  | Some m => disk w' = <[folder := ∅]> (<[fd := m ∪ e]> (disk w))
  | None => disk w' = disk w
  end.
Proof.
  intros He. unfold move_folder, bind at 1, dir_exists.
  destruct (disk w !! folder) as [m|] eqn:Em.
  - rewrite bool_decide_eq_true_2 by eauto.
    unfold bind, listdir. rewrite Em. intros H.
    apply (move_names_Ok _ w w' m e (NoDup_fst_map_to_list m) Em He) in H
      as (m' & e' & Hd & Hm' & He').
    rewrite Hd. f_equal; [|f_equal]; apply map_eq; intros x.
    + rewrite Hm', lookup_empty.
      case_decide as Hn; [reflexivity|].
      destruct (m !! x) eqn:Ex; [|reflexivity].
      exfalso. apply Hn. apply elem_of_names. eauto.
    + rewrite He', lookup_union.
      case_decide as Hy.
      * apply elem_of_names in Hy as [n Hn]. rewrite Hn.
        destruct (e !! x); reflexivity.
      * destruct (m !! x) eqn:Ex.
        { exfalso. apply Hy. apply elem_of_names. eauto. }
        { destruct (e !! x); reflexivity. }
  - rewrite bool_decide_eq_false_2 by (intros [? ?]; discriminate).
    intros [= <-]. reflexivity.
Qed.

End MoveNames.

Lemma final_dir_of_eq stamp :
  final_dir_of stamp = "outputs/processed/run_" +:+ stamp.
Proof. reflexivity. Qed.

Lemma final_dir_not_source stamp :
  LOCAL_EXPORTS <> final_dir_of stamp /\ PLOTS <> final_dir_of stamp /\
  final_dir_of stamp <> LOCAL_PROCESSED.
Proof. rewrite final_dir_of_eq. repeat split; discriminate. Qed.

Lemma move_files_Ok env fd w w' (e : gmap string node) :
  LOCAL_EXPORTS <> fd -> PLOTS <> fd ->
  disk w !! fd = Some e ->
  move_files env fd w = (Ok tt, w') ->
  disk w' !! fd =
    Some (default ∅ (disk w !! PLOTS) ∪ (default ∅ (disk w !! LOCAL_EXPORTS) ∪ e)) /\
  disk w' !! LOCAL_EXPORTS = (fun _ => ∅) <$> disk w !! LOCAL_EXPORTS /\
  disk w' !! PLOTS = (fun _ => ∅) <$> disk w !! PLOTS.
Proof.
  intros Hg Hp He H. unfold move_files in H. simpl in H.
  apply bind_Ok_inv in H as ([] & w1 & H1 & H).
  apply bind_Ok_inv in H as ([] & w2 & H2 & H).
  injection H as <-.
  assert (Hgp : LOCAL_EXPORTS <> PLOTS) by discriminate.
  pose proof (move_folder_Ok env LOCAL_EXPORTS fd Hg w w1 e He H1) as D1.
  assert (F1 : disk w1 !! fd = Some (default ∅ (disk w !! LOCAL_EXPORTS) ∪ e) /\
               disk w1 !! LOCAL_EXPORTS = (fun _ => ∅) <$> disk w !! LOCAL_EXPORTS /\
               disk w1 !! PLOTS = disk w !! PLOTS).
  { destruct (disk w !! LOCAL_EXPORTS) as [g|] eqn:Eg; rewrite D1; simpl.
    - rewrite lookup_insert_ne, lookup_insert_eq by congruence.
      rewrite lookup_insert_eq.
      rewrite !lookup_insert_ne by congruence. auto.
    - rewrite (left_id ∅ (∪)). auto. }
  destruct F1 as (Ff & Fg & Fp).
  pose proof (move_folder_Ok env PLOTS fd Hp w1 w2 _ Ff H2) as D2.
  rewrite Fp in D2.
  destruct (disk w !! PLOTS) as [p|] eqn:Ep; rewrite D2; simpl.
  - rewrite lookup_insert_ne, lookup_insert_eq by congruence.
    rewrite !lookup_insert_ne by congruence.
    rewrite lookup_insert_eq. auto.
  - rewrite (left_id ∅ (∪)). auto.
Qed.

(** What step 5 leaves on the disk when it completes. *)
Lemma organize_outputs_Ok env w out w' :
  organize_outputs env w = (Ok out, w') ->
  let fd := final_dir_of (timestamp env) in
  disk w' !! fd =
    Some (default ∅ (disk w !! PLOTS)
          ∪ (default ∅ (disk w !! LOCAL_EXPORTS) ∪ default ∅ (disk w !! fd))) /\
  disk w' !! LOCAL_EXPORTS = (fun _ => ∅) <$> disk w !! LOCAL_EXPORTS /\
  disk w' !! PLOTS = (fun _ => ∅) <$> disk w !! PLOTS.
Proof.
  intros H fd. unfold organize_outputs in H.
  destruct (final_dir_not_source (timestamp env)) as (Ng & Np & Nf).
  fold fd in Ng, Np, Nf, H.
  apply bind_Ok_inv in H as ([] & w1 & H1 & H).
  apply bind_Ok_inv in H as ([] & w2 & H2 & H).
  apply bind_Ok_inv in H as ([] & w3 & H3 & H).
  injection H as _ <-.
  destruct (makedirs_spec LOCAL_PROCESSED w)
    as (w1' & E1 & _ & _ & _ & O1 & _).
  rewrite E1 in H1. injection H1 as ->.
  destruct (makedirs_spec fd w1) as (w2' & E2 & S2 & _ & K2 & O2 & N2 & _).
  rewrite E2 in H2. injection H2 as ->.
  assert (Hfd : disk w2 !! fd = Some (default ∅ (disk w !! fd))).
  { rewrite <- (O1 fd) by exact Nf.
    destruct (disk w1 !! fd) as [e|] eqn:Ee.
    - rewrite K2 by (rewrite Ee; eauto). exact Ee.
    - apply N2. reflexivity. }
  destruct (move_files_Ok env fd w2 w3 _ Ng Np Hfd H3) as (Ff & Fg & Fp).
  assert (Hg2 : disk w2 !! LOCAL_EXPORTS = disk w !! LOCAL_EXPORTS).
  { rewrite O2 by exact Ng. apply O1. discriminate. }
  assert (Hp2 : disk w2 !! PLOTS = disk w !! PLOTS).
  { rewrite O2 by exact Np. apply O1. discriminate. }
  rewrite Hg2, Hp2 in Ff. rewrite Hg2 in Fg. rewrite Hp2 in Fp. auto.
Qed.

Lemma lookup_path_entry (d : FS) folder name :
  lookup_path d (entry folder name) = default ∅ (d !! folder) !! name.
Proof.
  unfold lookup_path, entry. simpl. destruct (d !! folder); simpl; [reflexivity|].
  symmetry. apply lookup_empty.
Qed.

(** The entry of the run directory under each name, after step 5: the
    one from the plots directory if there is one, else the one from the
    exports directory, else what the run directory held before. *)
Lemma organize_outputs_lookup env w out w' name :
  organize_outputs env w = (Ok out, w') ->
  let fd := final_dir_of (timestamp env) in
  lookup_path (disk w') (entry fd name) =
    match lookup_path (disk w) (entry PLOTS name) with
    | Some n => Some n
    | None =>
        match lookup_path (disk w) (entry LOCAL_EXPORTS name) with
        | Some n => Some n
        | None => lookup_path (disk w) (entry fd name)
        end
    end.
Proof.
  intros H fd. destruct (organize_outputs_Ok env w out w' H) as (Hf & _ & _).
  fold fd in Hf. rewrite !lookup_path_entry, Hf. simpl.
  rewrite !lookup_union.
  destruct (default ∅ (disk w !! PLOTS) !! name);
    destruct (default ∅ (disk w !! LOCAL_EXPORTS) !! name);
    destruct (default ∅ (disk w !! fd) !! name); reflexivity.
Qed.

(** C5.  When step 5 completes, every entry that was in an existing
    source directory has an entry of its name in the run directory and
    is gone from the source directory; under a name both source
    directories held, the run directory holds the entry of the plots
    directory, which is processed last, and under a name only the
    exports directory held, that entry; the source directories that
    existed still exist and are empty. *)
Theorem archive_is_a_relocation env w out w' :
  organize_outputs env w = (Ok out, w') ->
  let fd := final_dir_of (timestamp env) in
  out = (fd, timestamp env) /\
  (forall folder name n,
     folder ∈ [LOCAL_EXPORTS; PLOTS] ->
     lookup_path (disk w) (entry folder name) = Some n ->
     is_Some (lookup_path (disk w') (entry fd name)) /\
     lookup_path (disk w') (entry folder name) = None) /\
  (forall name n,
     lookup_path (disk w) (entry PLOTS name) = Some n ->
     lookup_path (disk w') (entry fd name) = Some n) /\
  (forall name n,
     lookup_path (disk w) (entry LOCAL_EXPORTS name) = Some n ->
     lookup_path (disk w) (entry PLOTS name) = None ->
     lookup_path (disk w') (entry fd name) = Some n) /\
  (forall folder,
     folder ∈ [LOCAL_EXPORTS; PLOTS] ->
     is_Some (disk w !! folder) -> disk w' !! folder = Some ∅).
Proof.
  intros H fd.
  pose proof (organize_outputs_result env w out w' H) as Hout.
  destruct (organize_outputs_Ok env w out w' H) as (_ & Hg & Hp).
  pose proof (fun name => organize_outputs_lookup env w out w' name H) as Hl.
  fold fd in Hl.
  assert (Hsrc : forall folder, folder ∈ [LOCAL_EXPORTS; PLOTS] ->
                   disk w' !! folder = (fun _ => ∅) <$> disk w !! folder).
  { intros folder Hin.
    apply elem_of_cons in Hin as [->|Hin]; [exact Hg|].
    apply list_elem_of_singleton in Hin as ->. exact Hp. }
  split; [exact Hout|]. split; [|split; [|split]].
  - intros folder name n Hin Hn. split.
    + rewrite Hl.
      apply elem_of_cons in Hin as [->|Hin].
      * rewrite Hn. destruct (lookup_path (disk w) (entry PLOTS name)); eauto.
      * apply list_elem_of_singleton in Hin as ->. rewrite Hn. eauto.
    + rewrite lookup_path_entry, (Hsrc folder Hin).
      destruct (disk w !! folder); simpl; apply lookup_empty.
  - intros name n Hn. rewrite Hl, Hn. reflexivity.
  - intros name n Hn Hnone. rewrite Hl, Hnone, Hn. reflexivity.
  - intros folder Hin [m Hm]. rewrite (Hsrc folder Hin), Hm. reflexivity.
Qed.

Lemma archive_is_a_relocation_witness :
  let env := sample_env late_drive (fun _ => 0%N) never_refuse in
  let w := init_world 0 collision_disk in
  let w' := (organize_outputs env w).2 in
  let fd := final_dir_of (timestamp env) in
  (fd, timestamp env) = (fd, timestamp env) /\
  (forall folder name n,
     folder ∈ [LOCAL_EXPORTS; PLOTS] ->
     lookup_path (disk w) (entry folder name) = Some n ->
     is_Some (lookup_path (disk w') (entry fd name)) /\
     lookup_path (disk w') (entry folder name) = None) /\
  (forall name n,
     lookup_path (disk w) (entry PLOTS name) = Some n ->
     lookup_path (disk w') (entry fd name) = Some n) /\
  (forall name n,
     lookup_path (disk w) (entry LOCAL_EXPORTS name) = Some n ->
     lookup_path (disk w) (entry PLOTS name) = None ->
     lookup_path (disk w') (entry fd name) = Some n) /\
  (forall folder,
     folder ∈ [LOCAL_EXPORTS; PLOTS] ->
     is_Some (disk w !! folder) -> disk w' !! folder = Some ∅).
Proof.
  intros env w w' fd.
  apply (archive_is_a_relocation env w (fd, timestamp env) w').
  vm_compute. reflexivity.
Defined.

(** On [collision_disk] the run directory ends with the plot under the
    shared name, and both source directories are empty. *)
Example archive_collision :
  let env := sample_env late_drive (fun _ => 0%N) never_refuse in
  let r := organize_outputs env (init_world 0 collision_disk) in
  r.1 = Ok (final_dir_of "20251004_1530", "20251004_1530") /\
  disk r.2 !! final_dir_of "20251004_1530" =
    Some {[ "a.tif" := File "export a"; "x.png" := File "plot x";
            "p.png" := File "plot p" ]} /\
  disk r.2 !! LOCAL_EXPORTS = Some ∅ /\ disk r.2 !! PLOTS = Some ∅.
Proof. vm_compute. repeat split. Qed.

(** ** Step 5 on plain files completes *)

Section MovesSucceed.

Variable env : Env.
Hypothesis Hnever : forall d s t, rename_refused env d s t = false.






End MovesSucceed.

(** ** A failed move is the last thing a run does *)

Lemma careful_ret {A} P (a : A) : careful P (ret a).
Proof.
  intros w. split; [|discriminate].
  exists []. simpl. rewrite app_nil_r. auto.
Qed.

Lemma careful_bind {A B} P (m : M A) (k : A -> M B) :
  careful P m -> (forall a, careful P (k a)) -> careful P (bind m k).
Proof.
  intros Hm Hk w. unfold bind.
  destruct (Hm w) as ((tr1 & E1 & F1) & L1).
  destruct (m w) as [[a|e|] w1]; simpl in *.
  - destruct (Hk a w1) as ((tr2 & E2 & F2) & L2). split; [|exact L2].
    exists (tr1 ++ tr2). rewrite E2, E1, app_assoc. split; [reflexivity|].
    apply Forall_app; auto.
  - split; [exists tr1; auto|].
    intros c s d [= ->]. apply (L1 c s d). reflexivity.
  - split; [exists tr1; auto | discriminate].
Qed.

Lemma careful_for_each {A} P (xs : list A) body :
  (forall x, careful P (body x)) -> careful P (for_each xs body).
Proof.
  intros Hb. induction xs as [|x xs IH]; simpl.
  - apply careful_ret.
  - apply careful_bind; auto.
Qed.

(** A step that appends at most one event and never fails in a move. *)
Lemma careful_step {A} (P : Event -> Prop) (m : M A) :
  (forall w,
     ((m w).2 = w \/ exists e, P e /\ trace (m w).2 = trace w ++ [e]) /\
     forall code src dst, (m w).1 <> Raise (RenameError code src dst)) ->
  careful P m.
Proof.
  intros H w. destruct (H w) as [[E|(e & HP & E)] Hr].
  - split; [|intros c s d Hc; destruct (Hr c s d Hc)].
    exists []. rewrite E, app_nil_r. auto.
  - split; [|intros c s d Hc; destruct (Hr c s d Hc)].
    exists [e]. split; [exact E | constructor; auto].
Qed.

(** The two shapes of a primitive in [careful_step]: it appends one
    event other than the write of the summary, or none. *)
Ltac appends_one :=
  split; [right; eexists; split; [|reflexivity]; discriminate | discriminate].
Ltac appends_none :=
  split; [left; reflexivity | discriminate].

Section Careful.

Variable env : Env.
Variable tm : Timing.
Local Abbreviation P := (not_summary_write env).

Lemma careful_subprocess_run script child : careful P (subprocess_run script child).
Proof.
  apply careful_step. intros w. unfold subprocess_run.
  destruct (child (disk w)).1; simpl; appends_one.
Qed.

Lemma careful_authenticate : careful P (authenticate env).
Proof.
  apply careful_step. intros w. unfold authenticate.
  destruct (auth_ok env); simpl; appends_one.
Qed.

Lemma careful_GetList e q :
  is_query e = true -> careful P (GetList env e q).
Proof.
  intros He. apply careful_step. intros w. unfold GetList. simpl.
  split; [|discriminate]. right. exists e. split; [|reflexivity].
  intros ->. discriminate.
Qed.

Lemma careful_time_time : careful P time_time.
Proof. apply careful_step. intros w. appends_none. Qed.

Lemma careful_time_sleep secs : careful P (time_sleep env secs).
Proof.
  apply careful_step. intros w. unfold time_sleep.
  destruct (secs <? 0)%Z; simpl; [appends_none | appends_one].
Qed.

Lemma careful_makedirs path : careful P (makedirs path).
Proof.
  apply careful_step. intros w. unfold makedirs.
  destruct (disk w !! path); simpl; appends_one.
Qed.

Lemma careful_path_exists p : careful P (path_exists p).
Proof. apply careful_step. intros w. appends_none. Qed.

Lemma careful_dir_exists folder : careful P (dir_exists folder).
Proof. apply careful_step. intros w. appends_none. Qed.

Lemma careful_listdir folder : careful P (listdir folder).
Proof.
  apply careful_step. intros w. unfold listdir.
  destruct (disk w !! folder); simpl; appends_none.
Qed.

Lemma careful_write_file p data :
  p.1 = LOCAL_EXPORTS -> careful P (write_file p data).
Proof.
  intros Hp. apply careful_step. intros w. unfold write_file.
  assert (HP : P (EvWrite p)).
  { intros [= E]. rewrite E in Hp. simpl in Hp.
    destruct (final_dir_not_source (timestamp env)) as (Hne & _). congruence. }
  destruct (disk w !! p.1) as [dir|]; simpl.
  - destruct (dir !! p.2) as [[]|]; simpl;
      (split; [right; eexists; split; [exact HP | reflexivity] | discriminate]).
  - split; [right; eexists; split; [exact HP | reflexivity] | discriminate].
Qed.

Lemma careful_os_rename src dst : careful P (os_rename env src dst).
Proof.
  intros w. unfold os_rename.
  assert (HP : Forall P [EvRename src dst]) by (constructor; [discriminate | constructor]).
  assert (Hl : last (trace w ++ [EvRename src dst]) = Some (EvRename src dst))
    by apply last_snoc.
  destruct (lookup_path (disk w) src) as [n|]; simpl.
  2: { split; [eauto|]. intros c s d [= _ <- <-]. exact Hl. }
  destruct (rename_refused env (disk w) src dst); simpl.
  { split; [eauto|]. intros c s d [= _ <- <-]. exact Hl. }
  destruct (disk w !! dst.1); simpl.
  2: { split; [eauto|]. intros c s d [= _ <- <-]. exact Hl. }
  destruct (rename_check n (lookup_path (disk w) dst)); simpl.
  - split; [eauto|]. intros c s d [= _ <- <-]. exact Hl.
  - split; [eauto|]. discriminate.
Qed.

Lemma careful_raise_other {A} e :
  (forall code src dst, e <> RenameError code src dst) -> careful P (@raise A e).
Proof.
  intros He. apply careful_step. intros w. simpl.
  split; [left; reflexivity|]. intros c s d [= E]. exact (He c s d E).
Qed.

Lemma careful_list_drive_files folder_name :
  careful P (list_drive_files env folder_name).
Proof.
  unfold list_drive_files. apply careful_bind.
  - apply careful_GetList. reflexivity.
  - intros [|folder rest].
    + apply careful_raise_other. discriminate.
    + apply careful_GetList. reflexivity.
Qed.

Lemma careful_poll_loop fuel start : careful P (poll_loop env tm fuel start).
Proof.
  induction fuel as [|fuel IH]; simpl.
  - apply careful_bind; [apply careful_time_time|]. intros now.
    destruct (now - start <? MAX_WAIT tm)%Z; [|apply careful_ret].
    apply careful_step. intros w. simpl. appends_none.
  - apply careful_bind; [apply careful_time_time|]. intros now.
    destruct (now - start <? MAX_WAIT tm)%Z; [|apply careful_ret].
    apply careful_bind; [apply careful_list_drive_files|].
    intros [|f files]; [|apply careful_ret].
    apply careful_bind; [apply careful_time_sleep | intros _; exact IH].
Qed.

Lemma careful_wait_for_exports fuel : careful P (wait_for_exports env tm fuel).
Proof.
  unfold wait_for_exports.
  apply careful_bind; [apply careful_time_time|]. intros start.
  apply careful_bind; [apply careful_poll_loop|].
  intros [files|]; [apply careful_ret | apply careful_raise_other; discriminate].
Qed.

Lemma careful_download_files files : careful P (download_files files).
Proof.
  unfold download_files. apply careful_bind; [apply careful_makedirs|].
  intros _. apply careful_for_each. intros f. unfold download_one.
  apply careful_bind; [apply careful_path_exists|].
  intros []; simpl; [apply careful_ret|].
  unfold GetContentFile. apply careful_bind.
  - apply careful_step. intros w. simpl. appends_one.
  - intros _. destruct (content f).
    + apply careful_write_file. reflexivity.
    + apply careful_raise_other. discriminate.
Qed.

Lemma careful_organize_outputs : careful P (organize_outputs env).
Proof.
  unfold organize_outputs.
  apply careful_bind; [apply careful_makedirs|]. intros _.
  apply careful_bind; [apply careful_makedirs|]. intros _.
  apply careful_bind; [|intros _; apply careful_ret].
  unfold move_files. apply careful_for_each. intros folder.
  unfold move_folder. apply careful_bind; [apply careful_dir_exists|].
  intros []; [|apply careful_ret].
  apply careful_bind; [apply careful_listdir|].
  intros names. apply careful_for_each. intros f. apply careful_os_rename.
Qed.

Lemma careful_steps_1_to_4 fuel : careful P (steps_1_to_4 env tm fuel).
Proof.
  unfold steps_1_to_4.
  apply careful_bind; [apply careful_subprocess_run|]. intros _.
  apply careful_bind; [apply careful_authenticate|]. intros _.
  apply careful_bind; [apply careful_wait_for_exports|]. intros files.
  apply careful_bind; [apply careful_download_files|]. intros _.
  apply careful_bind; [apply careful_subprocess_run|]. intros _.
  apply careful_ret.
Qed.

End Careful.

Lemma run_pipeline_split env tm fuel w :
  run_pipeline env tm fuel w =
    bind (steps_1_to_4 env tm fuel) (steps_5_and_6 env) w.
Proof.
  unfold run_pipeline, steps_1_to_4, steps_3_to_6, steps_5_and_6, bind.
  destruct (subprocess_run EXPORT_SCRIPT (export_script env) w)
    as [[[]|e|] w1]; [|reflexivity|reflexivity].
  destruct (authenticate env w1) as [[[]|e|] w2]; [|reflexivity|reflexivity].
  destruct (wait_for_exports env tm fuel w2) as [[files|e|] w3];
    [|reflexivity|reflexivity].
  destruct (download_files files w3) as [[[]|e|] w4]; [|reflexivity|reflexivity].
  destruct (subprocess_run PROCESS_SCRIPT (process_script env) w4)
    as [[[]|e|] w5]; reflexivity.
Qed.

(** Step 5 fails in a move only. *)
Lemma move_names_Raise env folder fd names : forall w e w',
  for_each names (fun f => os_rename env (entry folder f) (entry fd f)) w
    = (Raise e, w') ->
  exists code src dst, e = RenameError code src dst.
Proof.
  induction names as [|a names IH]; intros w e w' H; [discriminate|].
  simpl in H. apply bind_Raise_inv in H as [H|(_ & w1 & _ & H)].
  - unfold os_rename in H.
    destruct (lookup_path (disk w) (entry folder a)); [|injection H as <- _; eauto].
    destruct (rename_refused env (disk w) _ _); [injection H as <- _; eauto|].
    destruct (disk w !! (entry fd a).1); [|injection H as <- _; eauto].
    destruct (rename_check _ _); [injection H as <- _; eauto | discriminate].
  - exact (IH _ _ _ H).
Qed.

Lemma move_folder_Raise env fd folder w e w' :
  move_folder env fd folder w = (Raise e, w') ->
  exists code src dst, e = RenameError code src dst.
Proof.
  unfold move_folder, bind at 1, dir_exists.
  destruct (disk w !! folder) as [m|] eqn:Em.
  - rewrite bool_decide_eq_true_2 by eauto.
    unfold bind at 1, listdir. rewrite Em. apply move_names_Raise.
  - rewrite bool_decide_eq_false_2 by (intros [? ?]; discriminate).
    discriminate.
Qed.

Lemma makedirs_Ok path w : (makedirs path w).1 = Ok tt.
Proof. unfold makedirs. destruct (disk w !! path); reflexivity. Qed.

Lemma organize_outputs_Raise env w e w' :
  organize_outputs env w = (Raise e, w') ->
  exists code src dst, e = RenameError code src dst.
Proof.
  unfold organize_outputs. intros H.
  apply bind_Raise_inv in H as [H|(_ & w1 & _ & H)].
  { pose proof (makedirs_Ok LOCAL_PROCESSED w) as Hm. rewrite H in Hm.
    discriminate. }
  apply bind_Raise_inv in H as [H|(_ & w2 & _ & H)].
  { pose proof (makedirs_Ok (final_dir_of (timestamp env)) w1) as Hm.
    rewrite H in Hm. discriminate. }
  apply bind_Raise_inv in H as [H|(_ & w3 & _ & H)]; [|discriminate].
  unfold move_files in H. simpl in H.
  apply bind_Raise_inv in H as [H|(_ & w4 & _ & H)].
  { exact (move_folder_Raise _ _ _ _ _ _ H). }
  apply bind_Raise_inv in H as [H|(_ & w5 & _ & H)]; [|discriminate].
  exact (move_folder_Raise _ _ _ _ _ _ H).
Qed.

(** C3, as stated, fails: here the single export cannot be moved, because
    the run directory already holds a directory of its name.  The run
    ends with the error of that move; no [SUMMARY.txt] exists in the run
    directory and no write of it was attempted. *)
Lemma failed_move_leaves_no_summary :
  let env := sample_env single_drive (fun _ => 0%N) never_refuse in
  let fd := final_dir_of (timestamp env) in
  let r := run_pipeline env source_timing 24 (init_world 0 blocked_disk) in
  r.1 = Raise (RenameError EISDIR (entry LOCAL_EXPORTS "a.tif") (entry fd "a.tif")) /\
  lookup_path (disk r.2) (entry fd SUMMARY_NAME) = None /\
  last (trace r.2) =
    Some (EvRename (entry LOCAL_EXPORTS "a.tif") (entry fd "a.tif")) /\
  Forall (not_summary_write env) (trace r.2).
Proof.
  cbv zeta. split; [vm_compute; reflexivity|]. split; [vm_compute; reflexivity|].
  split; [vm_compute; reflexivity|].
  vm_compute. repeat (constructor; [discriminate|]). constructor.
Qed.

(** C3, amended.  When step 5 fails, it fails in a move; the run then
    ends with the error of that move ([RenameError], the specification's
    RelocationError) in the very world the failed step left: the call of
    that move is the last thing the run has done, so the rest of step 5
    is not carried out and step 6 is not attempted, no write of
    [SUMMARY.txt] having taken place. *)
Theorem failed_move_ends_the_run env tm fuel t0 d0 files w4 e w5 :
  steps_1_to_4 env tm fuel (init_world t0 d0) = (Ok files, w4) ->
  organize_outputs env w4 = (Raise e, w5) ->
  run_pipeline env tm fuel (init_world t0 d0) = (Raise e, w5) /\
  (exists code src dst,
     e = RenameError code src dst /\
     last (trace w5) = Some (EvRename src dst)) /\
  Forall (not_summary_write env) (trace w5).
Proof.
  intros H14 H5. split; [|split].
  - rewrite run_pipeline_split, (bind_Ok_step _ _ _ _ _ H14).
    unfold steps_5_and_6. apply bind_Raise_step. exact H5.
  - destruct (organize_outputs_Raise env w4 e w5 H5) as (code & src & dst & ->).
    exists code, src, dst. split; [reflexivity|].
    destruct (careful_organize_outputs env w4) as (_ & Hlast).
    rewrite H5 in Hlast. apply (Hlast code src dst). reflexivity.
  - destruct (careful_steps_1_to_4 env tm fuel (init_world t0 d0))
      as ((tr1 & E1 & F1) & _).
    destruct (careful_organize_outputs env w4) as ((tr2 & E2 & F2) & _).
    rewrite H14 in E1. rewrite H5 in E2. simpl in E1, E2.
    rewrite E2, E1. apply Forall_app. split; [exact F1 | exact F2].
Qed.

Lemma failed_move_ends_the_run_witness :
  let env := sample_env single_drive (fun _ => 0%N) never_refuse in
  let fd := final_dir_of (timestamp env) in
  let e := RenameError EISDIR (entry LOCAL_EXPORTS "a.tif") (entry fd "a.tif") in
  let w4 := (steps_1_to_4 env source_timing 24 (init_world 0 blocked_disk)).2 in
  let w5 := (organize_outputs env w4).2 in
  run_pipeline env source_timing 24 (init_world 0 blocked_disk) = (Raise e, w5) /\
  (exists code src dst,
     e = RenameError code src dst /\
     last (trace w5) = Some (EvRename src dst)) /\
  Forall (not_summary_write env) (trace w5).
Proof.
  intros env fd e w4 w5.
  apply (failed_move_ends_the_run env source_timing 24 0%Z blocked_disk
           [sample_file "a.tif"] w4 e w5).
  - vm_compute. reflexivity.
  - vm_compute. reflexivity.
Defined.

(** ** Step 5 when the run directory of the minute exists *)

















Section NeverReplaces.

Variable env : Env.
Hypothesis Hrule :
  forall d s t, rename_refused env d s t = refusal_rule Windows d s t.

Variables folder fd : string.
Hypothesis Hne : folder <> fd.






End NeverReplaces.

Section NeverReplacesStep.

Variable env : Env.
Hypothesis Hrule :
  forall d s t, rename_refused env d s t = refusal_rule Windows d s t.



End NeverReplacesStep.


(** The same on [rerun_disk], where the two [a.tif] differ: the one of
    the earlier run is kept, the new one stays in the staging directory. *)
Example rerun_keeps_the_first_on_windows :
  let env := sample_env late_drive (fun _ => 0%N) (refusal_rule Windows) in
  let fd := final_dir_of (timestamp env) in
  let r := organize_outputs env (init_world 0 rerun_disk) in
  (exists src, r.1 = Raise (RenameError EACCES src (entry fd "a.tif"))) /\
  lookup_path (disk r.2) (entry fd "a.tif") = Some (File "first a") /\
  lookup_path (disk r.2) (entry LOCAL_EXPORTS "a.tif") = Some (File "second a").
Proof. vm_compute. repeat split. eauto. Qed.

(** On [rerun_disk] the second [a.tif] replaces the first, [b.tif] is
    added, and the summary of the earlier run stays until step 6. *)
Example rerun_merges :
  let env := sample_env late_drive (fun _ => 0%N) never_refuse in
  let r := organize_outputs env (init_world 0 rerun_disk) in
  r.1 = Ok (final_dir_of "20251004_1530", "20251004_1530") /\
  disk r.2 !! final_dir_of "20251004_1530" =
    Some {[ "a.tif" := File "second a"; "b.tif" := File "second b";
            "SUMMARY.txt" := File "first summary" ]}.
Proof. vm_compute. repeat split. Qed.





(** ** Step 6: the summary *)

Lemma string_append_assoc (a b c : string) :
  (a +:+ b) +:+ c = a +:+ (b +:+ c).
Proof.
  induction a as [|x a IH]; [reflexivity|].
  change (String x ((a +:+ b) +:+ c) = String x (a +:+ (b +:+ c))).
  rewrite IH. reflexivity.
Qed.

Lemma summary_text_schema stamp n :
  summary_text stamp n =
    "SAR Tren Maya Analysis - Pipeline Run" +:+ nl +:+
    "Timestamp: " +:+ stamp +:+ nl +:+
    "Files processed: " +:+ str_of_nat n +:+ nl +:+
    "Steps:" +:+ nl +:+
    " 1) Exported from GEE" +:+ nl +:+
    " 2) Downloaded from Drive" +:+ nl +:+
    " 3) Processed locally (filters, time-series, change maps)" +:+ nl +:+
    " 4) Stored in outputs folder" +:+ nl.
Proof.
  unfold summary_text, summary_lines.
  cbn [map String.concat].
  rewrite !string_append_assoc. reflexivity.
Qed.

Lemma list_drive_files_Ok_inv env w files w1 :
  list_drive_files env EXPORT_FOLDER w = (Ok files, w1) ->
  listing env (queries w) = Some files /\ queries w1 = S (S (queries w)).
Proof.
  unfold listing.
  destruct (folder_query EXPORT_FOLDER (drive_at env (queries w)))
    as [|folder rest] eqn:Eq.
  - rewrite (list_drive_files_missing env w Eq). discriminate.
  - rewrite (list_drive_files_found env w folder rest Eq).
    intros [= <- <-]. auto.
Qed.

(** What the loop returns through [break] is the listing its last two
    queries produced. *)
Lemma poll_loop_Some_inv env tm fuel : forall start w files w',
  poll_loop env tm fuel start w = (Ok (Some files), w') ->
  files <> [] /\ 2 <= queries w' /\ listing env (queries w' - 2) = Some files.
Proof.
  induction fuel as [|fuel IH]; intros start w files w' H; simpl in H;
    unfold bind at 1, time_time in H;
    destruct (clock w - start <? MAX_WAIT tm)%Z; try discriminate.
  apply bind_Ok_inv in H as (found & w1 & H1 & H).
  apply list_drive_files_Ok_inv in H1 as (Hl & Hq).
  destruct found as [|f found].
  - apply bind_Ok_inv in H as ([] & w2 & _ & H). exact (IH _ _ _ _ H).
  - injection H as <- <-. split; [discriminate|]. split; [lia|].
    rewrite Hq. replace (S (S (queries w)) - 2) with (queries w) by lia.
    exact Hl.
Qed.

(** The line break of the summary is the line feed character. *)
Lemma nl_line_feed : nl = String "010" EmptyString.
Proof. reflexivity. Qed.

(** [str(n)] is the decimal numeral of [n]: read back, it gives [n]. *)
Lemma str_of_nat_reads_back n :
  NilZero.uint_of_string (str_of_nat n) = Some (Nat.to_uint n).
Proof.
  unfold str_of_nat. apply NilZero.usu.
  rewrite <- (Unsigned.of_to n) at 1. rewrite Unsigned.to_of.
  apply unorm_nonnil.
Qed.

(** C6.  After a run that succeeds, the run directory holds a
    [SUMMARY.txt] of eight lines, each ended by a line feed: the header
    line, the line [Timestamp: ] with the stamp of the run, the line
    [Files processed: ] with the count, the line [Steps:] and the four
    lines of the step list.  The count is written in decimal digits,
    without leading zeros, and is the length of the listing the last
    poll attempt of the run returned (the last two Drive queries),
    however many of its entries were downloaded. *)
Theorem summary_reports_the_listing env tm fuel t0 d0 w' :
  run_pipeline env tm fuel (init_world t0 d0) = (Ok tt, w') ->
  let LF := String "010" EmptyString in
  exists files digits,
    2 <= queries w' /\
    listing env (queries w' - 2) = Some files /\
    files <> [] /\
    NilZero.uint_of_string digits = Some (Nat.to_uint (length files)) /\
    option_map Nat.of_uint (NilZero.uint_of_string digits) = Some (length files) /\
    lookup_path (disk w') (entry (final_dir_of (timestamp env)) SUMMARY_NAME)
      = Some (File
          ("SAR Tren Maya Analysis - Pipeline Run" +:+ LF +:+
           "Timestamp: " +:+ timestamp env +:+ LF +:+
           "Files processed: " +:+ digits +:+ LF +:+
           "Steps:" +:+ LF +:+
           " 1) Exported from GEE" +:+ LF +:+
           " 2) Downloaded from Drive" +:+ LF +:+
           " 3) Processed locally (filters, time-series, change maps)" +:+ LF +:+
           " 4) Stored in outputs folder" +:+ LF)).
Proof.
  intros H LF. unfold run_pipeline in H.
  apply bind_Ok_inv in H as ([] & w1 & _ & H).
  apply bind_Ok_inv in H as ([] & w2 & _ & H).
  apply bind_Ok_inv in H as (files & w3 & Hwait & H).
  rewrite wait_for_exports_unfold in Hwait.
  destruct (poll_loop env tm fuel (clock w2) w2) as [[[found|]|e|] wp] eqn:Ep;
    try discriminate.
  injection Hwait as -> ->.
  destruct (poll_loop_Some_inv env tm fuel _ _ _ _ Ep) as (Hne & Hq & Hl).
  destruct (steps_3_to_6_no_query env files w3) as (Hsame & _).
  rewrite H in Hsame. simpl in Hsame.
  unfold steps_3_to_6 in H.
  apply bind_Ok_inv in H as ([] & w4 & _ & H).
  apply bind_Ok_inv in H as ([] & w5 & _ & H).
  apply bind_Ok_inv in H as (out & w6 & Hout & H).
  apply organize_outputs_result in Hout. subst out.
  unfold write_summary in H. simpl in H.
  apply write_file_Ok in H as (Hdir & Hdisk & _ & _).
  exists files, (str_of_nat (length files)). rewrite Hsame.
  split; [exact Hq|]. split; [exact Hl|]. split; [exact Hne|].
  split; [apply str_of_nat_reads_back|]. split.
  { rewrite str_of_nat_reads_back. simpl. rewrite Unsigned.of_to. reflexivity. }
  rewrite Hdisk, lookup_path_place_eq by exact Hdir.
  rewrite summary_text_schema, nl_line_feed. reflexivity.
Qed.

Lemma summary_reports_the_listing_witness :
  let env := sample_env late_drive (fun _ => 1%N) never_refuse in
  let w' := (run_pipeline env source_timing 24 (init_world 0 staged_disk)).2 in
  let LF := String "010" EmptyString in
  length [sample_file "a.tif"; sample_file "b.tif"; sample_file "c.tif"] = 3 /\
  listing env (queries w' - 2) =
    Some [sample_file "a.tif"; sample_file "b.tif"; sample_file "c.tif"] /\
  lookup_path (disk w') (entry "outputs/processed/run_20251004_1530" "SUMMARY.txt")
    = Some (File
        ("SAR Tren Maya Analysis - Pipeline Run" +:+ LF +:+
         "Timestamp: 20251004_1530" +:+ LF +:+
         "Files processed: 3" +:+ LF +:+
         "Steps:" +:+ LF +:+
         " 1) Exported from GEE" +:+ LF +:+
         " 2) Downloaded from Drive" +:+ LF +:+
         " 3) Processed locally (filters, time-series, change maps)" +:+ LF +:+
         " 4) Stored in outputs folder" +:+ LF)).
Proof.
  intros env w' LF.
  destruct (summary_reports_the_listing env source_timing 24 0%Z staged_disk w')
    as (files & digits & _ & Hl & _ & Hd & _ & Hs).
  { vm_compute. reflexivity. }
  assert (Hf : listing env (queries w' - 2) =
               Some [sample_file "a.tif"; sample_file "b.tif"; sample_file "c.tif"])
    by (vm_compute; reflexivity).
  rewrite Hf in Hl. injection Hl as <-.
  apply NilZero.sus in Hd. subst digits.
  split; [reflexivity|]. split; [exact Hf|]. exact Hs.
Defined.

(** The second end-to-end scenario of the specification, on a disk where
    [a.tif] is already staged: three entries listed on the second
    attempt, two of them downloaded, and the summary still counts 3. *)
Example summary_counts_the_listing_not_the_downloads :
  let env := sample_env late_drive (fun _ => 1%N) never_refuse in
  let r := run_pipeline env source_timing 24 (init_world 0 staged_disk) in
  r.1 = Ok tt /\
  poll_attempts (trace r.2) = 2 /\ sleeps (trace r.2) = 1 /\
  downloads (trace r.2) = 2 /\
  lookup_path (disk r.2) (entry (final_dir_of "20251004_1530") SUMMARY_NAME) =
    Some (File (summary_text "20251004_1530" 3)) /\
  str_of_nat 3 = "3".
Proof. vm_compute. repeat split. Qed.

(** * Further properties of the script *)

(** ** Steps 1 and 4: the two scripts, and the authentication *)

(** X1.  When the export script ends with a non-zero status, the run
    ends there with [CalledProcessError]: the authentication is not
    started, no Drive query is made, and apart from what the child did
    the disk is untouched. *)
Theorem export_failure_stops_the_run env tm fuel t0 d0 :
  (export_script env d0).1 = false ->
  run_pipeline env tm fuel (init_world t0 d0) =
    (Raise (CalledProcessError EXPORT_SCRIPT),
     {| clock := t0; disk := (export_script env d0).2; queries := 0;
        trace := [EvSubprocess EXPORT_SCRIPT] |}).
Proof.
  intros He. unfold run_pipeline. apply bind_Raise_step.
  unfold subprocess_run. simpl. rewrite He. reflexivity.
Qed.

Lemma export_failure_stops_the_run_witness :
  run_pipeline (scripted_env script_fails script_ok true late_drive)
               source_timing 24 (init_world 0 staged_disk) =
    (Raise (CalledProcessError EXPORT_SCRIPT),
     {| clock := 0; disk := staged_disk; queries := 0;
        trace := [EvSubprocess EXPORT_SCRIPT] |}).
Proof.
  apply (export_failure_stops_the_run
           (scripted_env script_fails script_ok true late_drive)
           source_timing 24 0%Z staged_disk).
  reflexivity.
Defined.

(** X2.  When the authentication fails after a successful export, the
    run ends with that failure before the first Drive query and before
    any action on the disk. *)
Theorem failed_authentication_stops_the_run env tm fuel t0 d0 :
  (export_script env d0).1 = true -> auth_ok env = false ->
  run_pipeline env tm fuel (init_world t0 d0) =
    (Raise AuthError,
     {| clock := t0; disk := (export_script env d0).2; queries := 0;
        trace := [EvSubprocess EXPORT_SCRIPT; EvAuth] |}).
Proof.
  intros He Ha. unfold run_pipeline.
  unfold bind at 1. unfold subprocess_run. simpl. rewrite He.
  apply bind_Raise_step. unfold authenticate. rewrite Ha. reflexivity.
Qed.

Lemma failed_authentication_stops_the_run_witness :
  run_pipeline (scripted_env script_ok script_ok false late_drive)
               source_timing 24 (init_world 0 staged_disk) =
    (Raise AuthError,
     {| clock := 0; disk := staged_disk; queries := 0;
        trace := [EvSubprocess EXPORT_SCRIPT; EvAuth] |}).
Proof.
  apply (failed_authentication_stops_the_run
           (scripted_env script_ok script_ok false late_drive)
           source_timing 24 0%Z staged_disk); reflexivity.
Defined.

(** X3.  When the processing script ends with a non-zero status after
    the downloads went through, steps 3 to 6 end with
    [CalledProcessError] right after the child: the downloads stay as
    the child left them, and neither the processed root nor the run
    directory is created, nothing is moved and no summary is written. *)
Theorem processing_failure_stops_the_run env files w w1 :
  download_files files w = (Ok tt, w1) ->
  (process_script env (disk w1)).1 = false ->
  exists w2,
    steps_3_to_6 env files w = (Raise (CalledProcessError PROCESS_SCRIPT), w2) /\
    disk w2 = (process_script env (disk w1)).2 /\
    trace w2 = trace w1 ++ [EvSubprocess PROCESS_SCRIPT] /\
    queries w2 = queries w1.
Proof.
  intros Hd Hp. unfold steps_3_to_6. rewrite (bind_Ok_step _ _ _ _ _ Hd).
  eexists. split.
  - apply bind_Raise_step. unfold subprocess_run. rewrite Hp. reflexivity.
  - simpl. auto.
Qed.

Lemma processing_failure_stops_the_run_witness :
  let env := scripted_env script_ok script_fails true late_drive in
  let files := [sample_file "a.tif"; sample_file "b.tif"] in
  let w := init_world 0 ∅ in
  let w1 := (download_files files w).2 in
  exists w2,
    steps_3_to_6 env files w = (Raise (CalledProcessError PROCESS_SCRIPT), w2) /\
    disk w2 = (process_script env (disk w1)).2 /\
    trace w2 = trace w1 ++ [EvSubprocess PROCESS_SCRIPT] /\
    queries w2 = queries w1.
Proof.
  intros env files w w1.
  apply (processing_failure_stops_the_run env files w w1).
  - vm_compute. reflexivity.
  - reflexivity.
Defined.

(** ** Step 2 for every behaviour of the Drive *)

(** X4.  With a window that is not positive the loop body never runs:
    the polling step raises [TimeoutError] at once, without a single
    Drive query and without a sleep. *)
Theorem closed_window_never_asks env tm fuel w :
  (MAX_WAIT tm <= 0)%Z ->
  wait_for_exports env tm fuel w = (Raise TimeoutError, w).
Proof.
  intros Hmax. rewrite wait_for_exports_unfold.
  rewrite poll_loop_expired by lia. reflexivity.
Qed.

Lemma closed_window_never_asks_witness :
  wait_for_exports (sample_env single_drive (fun _ => 0%N) never_refuse)
                   closed_timing 24 (init_world 0 ∅)
    = (Raise TimeoutError, init_world 0 ∅).
Proof.
  apply (closed_window_never_asks
           (sample_env single_drive (fun _ => 0%N) never_refuse)
           closed_timing 24 (init_world 0 ∅)).
  vm_compute. discriminate.
Defined.

Lemma poll_event_not_local e : is_poll_event e = true -> is_local e = false.
Proof. destruct e; simpl; intros H; (reflexivity || discriminate). Qed.

Lemma late_event_not_poll env e :
  late_event env e -> is_query e = false /\ is_sleep e = false.
Proof. destruct e; simpl; intros H; (split; reflexivity) || contradiction. Qed.

Lemma poll_loop_unfold env tm fuel start w :
  poll_loop env tm fuel start w =
    if (clock w - start <? MAX_WAIT tm)%Z then
      match fuel with
      | O => (OutOfFuel, w)
      | S fuel' =>
          bind (list_drive_files env EXPORT_FOLDER)
               (fun files =>
                  match files with
                  | _ :: _ => ret (Some files)
                  | [] => bind (time_sleep env (WAIT_TIME tm))
                               (fun _ => poll_loop env tm fuel' start)
                  end) w
      end
    else (Ok None, w).
Proof.
  destruct fuel; simpl; unfold bind at 1, time_time;
    destruct (clock w - start <? MAX_WAIT tm)%Z; reflexivity.
Qed.

(** What the loop does, for every Drive: the disk stays as it is, only
    queries and sleeps are appended, and an attempt is made only while
    the time already slept leaves room in the window. *)
Lemma poll_loop_general env tm fuel : forall start w o w',
  poll_loop env tm fuel start w = (o, w') ->
  disk w' = disk w /\
  exists tr,
    trace w' = trace w ++ tr /\
    Forall (fun e => is_poll_event e = true) tr /\
    ((0 < WAIT_TIME tm)%Z ->
     poll_attempts tr = 0 \/
     ((Z.of_nat (poll_attempts tr) - 1) * WAIT_TIME tm
      < MAX_WAIT tm - (clock w - start))%Z) /\
    ((0 < WAIT_TIME tm)%Z ->
     (MAX_WAIT tm - (clock w - start) <= Z.of_nat fuel * WAIT_TIME tm)%Z ->
     o <> OutOfFuel).
Proof.
  assert (Hstay : forall (w : World) (o : outcome (option (list DriveItem))),
            ((0 < WAIT_TIME tm)%Z -> o <> OutOfFuel) ->
            forall start (bound : Z),
            disk w = disk w /\
            exists tr,
              trace w = trace w ++ tr /\
              Forall (fun e => is_poll_event e = true) tr /\
              ((0 < WAIT_TIME tm)%Z ->
               poll_attempts tr = 0 \/
               ((Z.of_nat (poll_attempts tr) - 1) * WAIT_TIME tm
                < MAX_WAIT tm - (clock w - start))%Z) /\
              ((0 < WAIT_TIME tm)%Z ->
               (MAX_WAIT tm - (clock w - start) <= bound)%Z ->
               o <> OutOfFuel)).
  { intros w o Ho start bound. split; [reflexivity|]. exists [].
    rewrite app_nil_r. split; [reflexivity|]. split; [constructor|].
    split; [auto | intros Hw _; exact (Ho Hw)]. }
  induction fuel as [|fuel IH]; intros start w o w' H;
    rewrite poll_loop_unfold in H;
    destruct (Z.ltb_spec (clock w - start) (MAX_WAIT tm)) as [Hin|Hout].
  - injection H as <- <-. split; [reflexivity|]. exists [].
    rewrite app_nil_r. split; [reflexivity|]. split; [constructor|].
    split; [auto | intros Hw Hf; lia].
  - injection H as <- <-. apply Hstay. discriminate.
  - unfold bind at 1 in H.
    destruct (folder_query EXPORT_FOLDER (drive_at env (queries w)))
      as [|folder rest] eqn:Eq.
    { rewrite (list_drive_files_missing env w Eq) in H. injection H as <- <-.
      simpl. split; [reflexivity|]. exists [EvFolderQuery EXPORT_FOLDER].
      split; [reflexivity|]. split; [repeat constructor|].
      split; [intros _; right; cbn; lia | intros _ _; discriminate]. }
    rewrite (list_drive_files_found env w folder rest Eq) in H.
    destruct (children_query (item_id folder) (drive_at env (S (queries w))))
      as [|f files].
    2: { injection H as <- <-. simpl. split; [reflexivity|].
         exists [EvFolderQuery EXPORT_FOLDER; EvChildrenQuery (item_id folder)].
         split; [reflexivity|]. split; [repeat constructor|].
         split; [intros _; right; cbn; lia | intros _ _; discriminate]. }
    unfold bind at 1, time_sleep in H.
    destruct (Z.ltb_spec (WAIT_TIME tm) 0) as [Hneg|Hpos].
    { injection H as <- <-. simpl. split; [reflexivity|].
      exists [EvFolderQuery EXPORT_FOLDER; EvChildrenQuery (item_id folder)].
      split; [reflexivity|]. split; [repeat constructor|].
      split; [intros _; right; cbn; lia | intros _ _; discriminate]. }
    apply IH in H as (Hd & tr & Ht & Hall & Hatt & Hfuel).
    simpl in Hd, Ht, Hatt, Hfuel.
    split; [exact Hd|].
    exists ([EvFolderQuery EXPORT_FOLDER; EvChildrenQuery (item_id folder);
             EvSleep (WAIT_TIME tm)] ++ tr).
    split; [rewrite Ht, <- !app_assoc; reflexivity|].
    split; [apply Forall_app; split; [repeat constructor | exact Hall]|].
    split.
    + intros Hw. right. unfold poll_attempts in *. rewrite count_app.
      change (count is_folder_query
                [EvFolderQuery EXPORT_FOLDER; EvChildrenQuery (item_id folder);
                 EvSleep (WAIT_TIME tm)]) with 1.
      destruct (Hatt Hw) as [H0|Hlt]; [rewrite H0; lia | nia].
    + intros Hw Hf. apply Hfuel; [exact Hw | nia].
  - injection H as <- <-. apply Hstay. discriminate.
Qed.

(** Fuel beyond what the loop uses does not change its result. *)
Lemma poll_loop_more_fuel env tm fuel : forall start w fuel',
  (poll_loop env tm fuel start w).1 <> OutOfFuel -> fuel <= fuel' ->
  poll_loop env tm fuel' start w = poll_loop env tm fuel start w.
Proof.
  induction fuel as [|fuel IH]; intros start w fuel' H Hle.
  - rewrite (poll_loop_unfold env tm 0) in H |- *.
    rewrite (poll_loop_unfold env tm fuel').
    destruct (clock w - start <? MAX_WAIT tm)%Z; [|reflexivity].
    simpl in H. congruence.
  - destruct fuel' as [|fuel']; [lia|].
    rewrite (poll_loop_unfold env tm (S fuel)) in H |- *.
    rewrite (poll_loop_unfold env tm (S fuel')).
    destruct (clock w - start <? MAX_WAIT tm)%Z; [|reflexivity].
    unfold bind at 1 in H. unfold bind at 1. unfold bind at 2.
    destruct (list_drive_files env EXPORT_FOLDER w) as [[[|f files]|e|] w1];
      try reflexivity.
    unfold bind at 1 in H. unfold bind at 1. unfold bind at 1.
    destruct (time_sleep env (WAIT_TIME tm) w1) as [[[]|e|] w2]; try reflexivity.
    apply IH; [exact H | lia].
Qed.

Lemma wait_for_exports_world env tm fuel w :
  (wait_for_exports env tm fuel w).2 = (poll_loop env tm fuel (clock w) w).2 /\
  ((wait_for_exports env tm fuel w).1 = OutOfFuel <->
   (poll_loop env tm fuel (clock w) w).1 = OutOfFuel).
Proof.
  rewrite wait_for_exports_unfold.
  destruct (poll_loop env tm fuel (clock w) w) as [[[files|]|e|] w1]; simpl;
    (split; [reflexivity | split; (discriminate || reflexivity)]).
Qed.

(** X5.  For every behaviour of the Drive, if [WAIT_TIME] is positive the
    polling step comes to an end, after at most the ceiling of
    [MAX_WAIT / WAIT_TIME] poll attempts; in the model, fuel of that
    amount is enough and more fuel gives the same result. *)
Theorem polling_ends_within_the_bound env tm fuel w :
  (0 < WAIT_TIME tm)%Z -> poll_bound tm <= fuel ->
  (wait_for_exports env tm fuel w).1 <> OutOfFuel /\
  (exists tr,
     trace (wait_for_exports env tm fuel w).2 = trace w ++ tr /\
     poll_attempts tr <= poll_bound tm) /\
  (forall fuel', fuel <= fuel' ->
     wait_for_exports env tm fuel' w = wait_for_exports env tm fuel w).
Proof.
  intros Hw Hf.
  pose proof (poll_bound_enough tm fuel Hw Hf) as Hb.
  destruct (poll_loop env tm fuel (clock w) w) as [o w'] eqn:E.
  destruct (poll_loop_general env tm fuel (clock w) w o w' E)
    as (_ & tr & Ht & _ & Hatt & Hfuel).
  destruct (wait_for_exports_world env tm fuel w) as (Hworld & Hout).
  rewrite E in Hworld, Hout. simpl in Hworld, Hout.
  assert (Hno : (poll_loop env tm fuel (clock w) w).1 <> OutOfFuel)
    by (rewrite E; apply Hfuel; [exact Hw | lia]).
  split; [intros H; rewrite E in Hno; apply Hno, Hout, H|]. split.
  - exists tr. rewrite Hworld. split; [exact Ht|].
    destruct (Hatt Hw) as [H0|Hlt]; [lia|].
    unfold poll_bound.
    assert (Z.of_nat (poll_attempts tr)
            <= (MAX_WAIT tm + WAIT_TIME tm - 1) / WAIT_TIME tm)%Z.
    { apply Z.div_le_lower_bound; [exact Hw | nia]. }
    lia.
  - intros fuel' Hle. rewrite !wait_for_exports_unfold.
    rewrite (poll_loop_more_fuel env tm fuel (clock w) w fuel' Hno Hle).
    reflexivity.
Qed.

Lemma polling_ends_within_the_bound_witness :
  let env := sample_env vanishing_drive (fun _ => 7%N) never_refuse in
  let w := init_world 0 ∅ in
  (wait_for_exports env source_timing 24 w).1 <> OutOfFuel /\
  (exists tr,
     trace (wait_for_exports env source_timing 24 w).2 = trace w ++ tr /\
     poll_attempts tr <= poll_bound source_timing) /\
  (forall fuel', 24 <= fuel' ->
     wait_for_exports env source_timing fuel' w
       = wait_for_exports env source_timing 24 w).
Proof.
  intros env w.
  apply (polling_ends_within_the_bound env source_timing 24 w).
  - reflexivity.
  - vm_compute. lia.
Defined.

(** X6.  Whatever the Drive answers and however the polling step ends,
    it leaves the local disk as it found it, and all it does is Drive
    queries and sleeps. *)
Theorem polling_leaves_the_disk_alone env tm fuel w :
  disk (wait_for_exports env tm fuel w).2 = disk w /\
  exists tr,
    trace (wait_for_exports env tm fuel w).2 = trace w ++ tr /\
    Forall (fun e => is_poll_event e = true) tr /\
    Forall (fun e => is_local e = false) tr.
Proof.
  destruct (wait_for_exports_world env tm fuel w) as (Hworld & _).
  destruct (poll_loop env tm fuel (clock w) w) as [o w'] eqn:E.
  destruct (poll_loop_general env tm fuel (clock w) w o w' E)
    as (Hd & tr & Ht & Hall & _).
  rewrite Hworld. simpl. split; [exact Hd|]. exists tr.
  split; [exact Ht|]. split; [exact Hall|].
  eapply Forall_impl; [exact Hall|]. apply poll_event_not_local.
Qed.

Lemma wait_for_exports_appends env tm fuel w :
  exists tr,
    trace (wait_for_exports env tm fuel w).2 = trace w ++ tr /\
    Forall (fun e => is_local e = false) tr.
Proof.
  destruct (wait_for_exports_world env tm fuel w) as (Hworld & _).
  destruct (poll_loop env tm fuel (clock w) w) as [o w'] eqn:E.
  destruct (poll_loop_general env tm fuel (clock w) w o w' E)
    as (_ & tr & Ht & Hall & _).
  exists tr. rewrite Hworld. split; [exact Ht|].
  eapply Forall_impl; [exact Hall|]. apply poll_event_not_local.
Qed.

(** ** The order of a run *)

(** X7.  The trace of every run, however it ends, falls into two parts:
    a first part without any action on the local disk (the export, the
    authentication, the Drive queries and the sleeps), and a second part
    without any Drive query and without any sleep.  Once the first file
    system call of step 3 is made, the Drive is not asked again. *)
Theorem drive_first_disk_second env tm fuel t0 d0 :
  exists tr1 tr2,
    trace (run_pipeline env tm fuel (init_world t0 d0)).2 = tr1 ++ tr2 /\
    Forall (fun e => is_local e = false) tr1 /\
    Forall (fun e => is_query e = false /\ is_sleep e = false) tr2.
Proof.
  unfold run_pipeline. unfold bind at 1, subprocess_run. simpl.
  destruct (export_script env d0).1.
  2: { exists [EvSubprocess EXPORT_SCRIPT], []. simpl.
       split; [reflexivity|]. split; repeat constructor. }
  unfold bind at 1, authenticate.
  destruct (auth_ok env).
  2: { exists [EvSubprocess EXPORT_SCRIPT; EvAuth], []. simpl.
       split; [reflexivity|]. split; repeat constructor. }
  set (w2 := emit EvAuth _).
  destruct (wait_for_exports_appends env tm fuel w2) as (trp & Hp & Fp).
  unfold bind.
  destruct (wait_for_exports env tm fuel w2) as [[files|e|] w3]; simpl in Hp.
  - destruct (offline_steps_3_to_6 env files w3) as (_ & trl & Hl & Fl).
    exists (trace w2 ++ trp), trl. rewrite Hl, Hp.
    split; [reflexivity|]. split.
    + apply Forall_app. split; [repeat constructor | exact Fp].
    + eapply Forall_impl; [exact Fl|]. apply late_event_not_poll.
  - exists (trace w2 ++ trp), []. rewrite app_nil_r.
    split; [exact Hp|]. split; [|constructor].
    apply Forall_app. split; [repeat constructor | exact Fp].
  - exists (trace w2 ++ trp), []. rewrite app_nil_r.
    split; [exact Hp|]. split; [|constructor].
    apply Forall_app. split; [repeat constructor | exact Fp].
Qed.

(** ** Step 2: what a listing holds *)

(** X8.  A call of [list_drive_files] that returns has made exactly two
    Drive queries; the folder it used is the first answer of the folder
    query, an untrashed folder of the configured name; and the listing
    holds exactly the objects of the Drive that are not in the trash and
    have that folder among their parents. *)
Theorem listing_is_the_untrashed_children env w files w1 :
  list_drive_files env EXPORT_FOLDER w = (Ok files, w1) ->
  exists folder,
    head (folder_query EXPORT_FOLDER (drive_at env (queries w))) = Some folder /\
    title folder = EXPORT_FOLDER /\
    mimeType folder = FOLDER_MIME /\
    trashed folder = false /\
    folder ∈ drive_at env (queries w) /\
    (forall it,
       it ∈ files <->
       it ∈ drive_at env (S (queries w)) /\
       item_id folder ∈ parents it /\ trashed it = false) /\
    queries w1 = queries w + 2 /\
    disk w1 = disk w.
Proof.
  intros H.
  destruct (folder_query EXPORT_FOLDER (drive_at env (queries w)))
    as [|folder rest] eqn:Eq.
  { rewrite (list_drive_files_missing env w Eq) in H. discriminate. }
  rewrite (list_drive_files_found env w folder rest Eq) in H.
  injection H as <- <-. exists folder. simpl.
  assert (Hin : folder ∈ folder_query EXPORT_FOLDER (drive_at env (queries w)))
    by (rewrite Eq; left).
  unfold folder_query in Hin.
  apply list_elem_of_filter in Hin as ((Ht & Hm & Hf) & Hd).
  split; [reflexivity|]. split; [exact Ht|]. split; [exact Hm|].
  split; [exact Hf|]. split; [exact Hd|]. split; [|split; [lia | reflexivity]].
  intros it. unfold children_query. rewrite list_elem_of_filter. tauto.
Qed.

Lemma listing_is_the_untrashed_children_witness :
  let env := sample_env single_drive (fun _ => 0%N) never_refuse in
  let w := init_world 0 ∅ in
  let w1 := (list_drive_files env EXPORT_FOLDER w).2 in
  exists folder,
    head (folder_query EXPORT_FOLDER (drive_at env (queries w))) = Some folder /\
    title folder = EXPORT_FOLDER /\
    mimeType folder = FOLDER_MIME /\
    trashed folder = false /\
    folder ∈ drive_at env (queries w) /\
    (forall it,
       it ∈ [sample_file "a.tif"] <->
       it ∈ drive_at env (S (queries w)) /\
       item_id folder ∈ parents it /\ trashed it = false) /\
    queries w1 = queries w + 2 /\
    disk w1 = disk w.
Proof.
  intros env w w1.
  apply (listing_is_the_untrashed_children env w [sample_file "a.tif"] w1).
  vm_compute. reflexivity.
Defined.

(** ** Step 5: the name of the run directory *)

(** X9.  The run directory is the processed root followed by [run_] and
    the timestamp: two timestamps give the same run directory only if
    they are equal, and the run directory is never the exports
    directory, the plots directory or the processed root, so that step 5
    never moves a directory's entries onto themselves. *)
Theorem run_directories_are_apart stamp1 stamp2 :
  (final_dir_of stamp1 = final_dir_of stamp2 <-> stamp1 = stamp2) /\
  final_dir_of stamp1 = LOCAL_PROCESSED +:+ "run_" +:+ stamp1 /\
  final_dir_of stamp1 <> LOCAL_EXPORTS /\
  final_dir_of stamp1 <> PLOTS /\
  final_dir_of stamp1 <> LOCAL_PROCESSED.
Proof.
  split; [|split; [reflexivity|]].
  - split; [|intros ->; reflexivity].
    rewrite !final_dir_of_eq. intros H. injection H. auto.
  - destruct (final_dir_not_source stamp1) as (H1 & H2 & H3).
    split; [congruence|]. split; [congruence | exact H3].
Qed.

(** ** Step 3: what the downloads do to the disk *)

Lemma for_each_app {A} (xs ys : list A) body w :
  for_each (xs ++ ys) body w =
    bind (for_each xs body) (fun _ => for_each ys body) w.
Proof.
  revert w. induction xs as [|x xs IH]; intros w; simpl.
  - reflexivity.
  - unfold bind. destruct (body x w) as [[[]|e|] w1]; [|reflexivity..].
    rewrite IH. reflexivity.
Qed.

(** X10.  When the download of an entry raises, the fetch step ends
    there with [DownloadError] and the title of that entry: the entries
    after it are not looked at, what the entries before it brought to
    the disk stays, and the processing script is not started. *)
Theorem download_failure_stops_the_fetch env files1 f files2 w w1 :
  download_files files1 w = (Ok tt, w1) ->
  lookup_path (disk w1) (entry LOCAL_EXPORTS (title f)) = None ->
  content f = None ->
  exists w2,
    download_files (files1 ++ f :: files2) w
      = (Raise (DownloadError (title f)), w2) /\
    steps_3_to_6 env (files1 ++ f :: files2) w
      = (Raise (DownloadError (title f)), w2) /\
    disk w2 = disk w1 /\
    trace w2 = trace w1 ++ [EvDownload (title f)].
Proof.
  intros H1 Hnone Hc. unfold download_files in H1.
  apply bind_Ok_inv in H1 as ([] & wm & Hm & Hloop).
  assert (Hf : download_one f w1 =
                 (Raise (DownloadError (title f)), emit (EvDownload (title f)) w1)).
  { unfold download_one, bind at 1, path_exists.
    rewrite bool_decide_eq_false_2
      by (rewrite Hnone; intros [? ?]; discriminate).
    unfold GetContentFile, bind, log. rewrite Hc. reflexivity. }
  assert (E : download_files (files1 ++ f :: files2) w =
              (Raise (DownloadError (title f)), emit (EvDownload (title f)) w1)).
  { unfold download_files. rewrite (bind_Ok_step _ _ _ _ _ Hm).
    rewrite for_each_app, (bind_Ok_step _ _ _ _ _ Hloop).
    simpl. apply bind_Raise_step. exact Hf. }
  exists (emit (EvDownload (title f)) w1).
  split; [exact E|]. split; [|split; reflexivity].
  unfold steps_3_to_6. apply bind_Raise_step. exact E.
Qed.

Lemma download_failure_stops_the_fetch_witness :
  let env := sample_env late_drive (fun _ => 0%N) never_refuse in
  let w := init_world 0 ∅ in
  let files1 := [sample_file "a.tif"] in
  let f := broken_file "notes" in
  let files2 := [sample_file "c.tif"] in
  let w1 := (download_files files1 w).2 in
  exists w2,
    download_files (files1 ++ f :: files2) w
      = (Raise (DownloadError (title f)), w2) /\
    steps_3_to_6 env (files1 ++ f :: files2) w
      = (Raise (DownloadError (title f)), w2) /\
    disk w2 = disk w1 /\
    trace w2 = trace w1 ++ [EvDownload (title f)].
Proof.
  intros env w files1 f files2 w1.
  apply (download_failure_stops_the_fetch env files1 f files2 w w1).
  - vm_compute. reflexivity.
  - vm_compute. reflexivity.
  - reflexivity.
Defined.

Lemma fetch_grows_refl d : fetch_grows d d.
Proof. split; auto. Qed.

Lemma fetch_grows_trans d1 d2 d3 :
  fetch_grows d1 d2 -> fetch_grows d2 d3 -> fetch_grows d1 d3.
Proof.
  intros [K1 F1] [K2 F2]. split.
  - intros p n H. apply K2, K1, H.
  - intros folder H. rewrite F2, F1 by exact H. reflexivity.
Qed.

Lemma download_one_grows f w : fetch_grows (disk w) (disk (download_one f w).2).
Proof.
  unfold download_one, bind at 1, path_exists.
  destruct (bool_decide_reflect
              (is_Some (lookup_path (disk w) (entry LOCAL_EXPORTS (title f)))))
    as [Hy|Hn]; simpl; [apply fetch_grows_refl|].
  unfold GetContentFile, bind, log.
  destruct (content f) as [data|]; [|apply fetch_grows_refl].
  unfold write_file. simpl.
  destruct (disk w !! LOCAL_EXPORTS) as [dir|] eqn:Ed; [|apply fetch_grows_refl].
  destruct (dir !! title f) as [[]|] eqn:En; simpl;
    try apply fetch_grows_refl.
  - exfalso. apply Hn. unfold lookup_path, entry. simpl. rewrite Ed, En. eauto.
  - split.
    + intros p n Hp. rewrite lookup_path_place_ne; [exact Hp|].
      intros <-. unfold lookup_path, entry in Hp. simpl in Hp.
      rewrite Ed, En in Hp. discriminate.
    + intros folder Hne. unfold place_entry, entry. simpl.
      apply lookup_alter_ne. congruence.
Qed.

Lemma fetch_loop_grows files : forall w,
  fetch_grows (disk w) (disk (for_each files download_one w).2).
Proof.
  induction files as [|f files IH]; intros w; simpl; [apply fetch_grows_refl|].
  pose proof (download_one_grows f w) as H1. unfold bind.
  destruct (download_one f w) as [[[]|e|] w1]; simpl in *; [|exact H1..].
  eapply fetch_grows_trans; [exact H1 | apply IH].
Qed.

(** X11.  For entries whose titles are plain file names, and however
    the fetch step ends: every entry that was on the disk is still there
    with the node it had, and the plots directory, the processed root
    and every run directory are as they were. *)
Theorem fetch_only_adds_to_staging files w :
  plain_titles files ->
  (forall p n,
     lookup_path (disk w) p = Some n ->
     lookup_path (disk (download_files files w).2) p = Some n) /\
  (forall folder,
     folder = PLOTS \/ folder = LOCAL_PROCESSED \/
     (exists stamp, folder = final_dir_of stamp) ->
     disk (download_files files w).2 !! folder = disk w !! folder).
Proof.
  intros _. unfold download_files.
  destruct (makedirs_spec LOCAL_EXPORTS w)
    as (wm & Em & _ & Hsame & _ & Hother & _).
  rewrite (bind_Ok_step _ _ _ _ _ Em).
  destruct (fetch_loop_grows files wm) as [K F]. split.
  - intros p n Hp. apply K. rewrite Hsame. exact Hp.
  - intros folder Hf.
    assert (Hne : folder <> LOCAL_EXPORTS).
    { destruct Hf as [->|[->|[stamp ->]]]; [discriminate..|].
      destruct (final_dir_not_source stamp) as (Ng & _). congruence. }
    rewrite F by exact Hne. apply Hother. exact Hne.
Qed.

Lemma fetch_only_adds_to_staging_witness :
  let files := [sample_file "a.tif"; sample_file "b.tif"] in
  let w := init_world 0 collision_disk in
  (forall p n,
     lookup_path (disk w) p = Some n ->
     lookup_path (disk (download_files files w).2) p = Some n) /\
  (forall folder,
     folder = PLOTS \/ folder = LOCAL_PROCESSED \/
     (exists stamp, folder = final_dir_of stamp) ->
     disk (download_files files w).2 !! folder = disk w !! folder).
Proof.
  intros files w. apply (fetch_only_adds_to_staging files w).
  repeat constructor.
Defined.

Lemma fetch_loop_first files : forall w w1 t f,
  for_each files download_one w = (Ok tt, w1) ->
  lookup_path (disk w) (entry LOCAL_EXPORTS t) = None ->
  first_titled t files = Some f ->
  exists data,
    content f = Some data /\
    lookup_path (disk w1) (entry LOCAL_EXPORTS t) = Some (File data).
Proof.
  induction files as [|g files IH]; intros w w1 t f H Hnone Hfirst;
    [discriminate|].
  simpl in H. apply bind_Ok_inv in H as ([] & wm & Hg & Hrest).
  unfold first_titled in Hfirst. simpl in Hfirst.
  destruct (String.eqb_spec (title g) t) as [Et|Et].
  - injection Hfirst as <-. subst t.
    apply download_one_Ok in Hg as [[[n Hn] _]|(_ & Hdir & data & Hc & Hd & _)];
      [congruence|].
    exists data. split; [exact Hc|].
    destruct (fetch_loop_Ok files wm w1 Hrest) as (_ & Hkeep & _).
    apply Hkeep. rewrite Hd. apply lookup_path_place_eq. exact Hdir.
  - apply (IH wm w1 t f Hrest); [|exact Hfirst].
    apply download_one_Ok in Hg as [[_ ->]|(_ & _ & data & _ & Hd & _)];
      [exact Hnone|].
    rewrite Hd, lookup_path_place_ne; [exact Hnone|].
    unfold entry. congruence.
Qed.

(** X12.  For entries whose titles are plain file names: when several
    entries of a listing carry the same title and no file of that title
    is staged, the fetch step stores the content of the first of them;
    the later ones find the file present and are skipped. *)
Theorem first_of_a_title_is_stored files w w1 t f :
  plain_titles files ->
  download_files files w = (Ok tt, w1) ->
  lookup_path (disk w) (entry LOCAL_EXPORTS t) = None ->
  first_titled t files = Some f ->
  exists data,
    content f = Some data /\
    lookup_path (disk w1) (entry LOCAL_EXPORTS t) = Some (File data).
Proof.
  unfold download_files. intros _ H Hnone Hfirst.
  apply bind_Ok_inv in H as ([] & wm & Hm & Hloop).
  destruct (makedirs_spec LOCAL_EXPORTS w) as (wm' & Em & _ & Hsame & _).
  rewrite Em in Hm. injection Hm as ->.
  apply (fetch_loop_first files wm w1 t f Hloop); [|exact Hfirst].
  rewrite Hsame. exact Hnone.
Qed.

Lemma first_of_a_title_is_stored_witness :
  let w := init_world 0 ∅ in
  let w1 := (download_files twin_files w).2 in
  exists data,
    content {| item_id := "1"; title := "a.tif"; mimeType := "image/tiff";
               trashed := false; parents := ["F"];
               content := Some "first bytes" |} = Some data /\
    lookup_path (disk w1) (entry LOCAL_EXPORTS "a.tif") = Some (File data).
Proof.
  intros w w1.
  apply (first_of_a_title_is_stored twin_files w w1 "a.tif").
  - repeat constructor.
  - vm_compute. reflexivity.
  - reflexivity.
  - reflexivity.
Defined.

(** ** Step 5 and step 6: what a run leaves behind *)

Lemma remove_entry_dir (d : FS) p folder :
  is_Some (remove_entry p d !! folder) <-> is_Some (d !! folder).
Proof.
  unfold remove_entry. destruct (decide (p.1 = folder)) as [<-|E].
  - rewrite lookup_alter_eq.
    destruct (d !! p.1); simpl; split; intros [? ?]; eauto; discriminate.
  - rewrite lookup_alter_ne by exact E. reflexivity.
Qed.

Lemma moves_keep_refl fd d : moves_keep fd d d.
Proof. split; auto. Qed.

Lemma moves_keep_trans fd d1 d2 d3 :
  moves_keep fd d1 d2 -> moves_keep fd d2 d3 -> moves_keep fd d1 d3.
Proof.
  intros [K1 F1] [K2 F2]. split.
  - intros name H. apply K2, K1, H.
  - intros folder H1 H2 H3 H4. rewrite F2, F1 by assumption. reflexivity.
Qed.

Lemma makedirs_keeps fd path w :
  path = fd \/ path = LOCAL_PROCESSED ->
  moves_keep fd (disk w) (disk (makedirs path w).2).
Proof.
  intros Hpath.
  destruct (makedirs_spec path w) as (wm & Em & _ & Hsame & _ & Hother & _).
  rewrite Em. simpl. split.
  - unfold held. intros name. rewrite !Hsame. auto.
  - intros folder _ _ H3 H4. apply Hother. destruct Hpath; congruence.
Qed.

Section MovesKeep.

Variable env : Env.
Variables folder fd : string.
Hypothesis Hsource : folder = LOCAL_EXPORTS \/ folder = PLOTS.
Hypothesis Hne : folder <> fd.

Lemma os_rename_keeps f w :
  moves_keep fd (disk w)
             (disk (os_rename env (entry folder f) (entry fd f) w).2).
Proof.
  destruct (os_rename env (entry folder f) (entry fd f) w) as [[[]|e|] w1] eqn:E.
  - apply os_rename_Ok in E as (n & _ & _ & Hdir & _ & Hd). simpl. rewrite Hd.
    assert (Hother : forall p,
              p <> entry fd f -> p <> entry folder f ->
              lookup_path (place_entry (entry fd f) n
                             (remove_entry (entry folder f) (disk w))) p
              = lookup_path (disk w) p).
    { intros p H1 H2. rewrite lookup_path_place_ne by congruence.
      apply lookup_path_remove_ne. congruence. }
    split.
    + intros name Hheld. destruct (decide (name = f)) as [->|Hname].
      * right. right. rewrite lookup_path_place_eq; [eauto|].
        apply remove_entry_dir. exact Hdir.
      * unfold held in *.
        rewrite !Hother by (unfold entry; congruence). exact Hheld.
    + intros k H1 H2 H3 H4. unfold place_entry, remove_entry, entry. simpl.
      rewrite !lookup_alter_ne by (destruct Hsource; congruence). reflexivity.
  - unfold os_rename in E.
    destruct (lookup_path (disk w) (entry folder f));
      [|injection E as _ <-; apply moves_keep_refl].
    destruct (rename_refused env (disk w) _ _);
      [injection E as _ <-; apply moves_keep_refl|].
    destruct (disk w !! (entry fd f).1);
      [|injection E as _ <-; apply moves_keep_refl].
    destruct (rename_check _ _);
      [injection E as _ <-; apply moves_keep_refl | discriminate].
  - unfold os_rename in E.
    destruct (lookup_path (disk w) (entry folder f)); [|discriminate].
    destruct (rename_refused env (disk w) _ _); [discriminate|].
    destruct (disk w !! (entry fd f).1); [|discriminate].
    destruct (rename_check _ _); discriminate.
Qed.

Lemma move_names_keep names : forall w,
  moves_keep fd (disk w)
    (disk (for_each names
             (fun f => os_rename env (entry folder f) (entry fd f)) w).2).
Proof.
  induction names as [|f names IH]; intros w; simpl; [apply moves_keep_refl|].
  pose proof (os_rename_keeps f w) as H1. unfold bind.
  destruct (os_rename env (entry folder f) (entry fd f) w) as [[[]|e|] w1];
    simpl in *; [|exact H1..].
  eapply moves_keep_trans; [exact H1 | apply IH].
Qed.

Lemma move_folder_keeps w :
  moves_keep fd (disk w) (disk (move_folder env fd folder w).2).
Proof.
  unfold move_folder, bind at 1, dir_exists.
  destruct (bool_decide (is_Some (disk w !! folder))); [|apply moves_keep_refl].
  unfold bind, listdir. destruct (disk w !! folder) as [m|];
    [|apply moves_keep_refl].
  apply move_names_keep.
Qed.

End MovesKeep.

(** X13.  However step 5 ends, also when a move fails half-way, no name
    is lost: every name that was held by the exports directory, the
    plots directory or the run directory is afterwards still held by one
    of the three; and no directory other than these and the processed
    root is touched. *)
Theorem archive_drops_no_name env w :
  let fd := final_dir_of (timestamp env) in
  let d' := disk (organize_outputs env w).2 in
  (forall name, held fd (disk w) name -> held fd d' name) /\
  (forall folder,
     folder <> LOCAL_EXPORTS -> folder <> PLOTS -> folder <> fd ->
     folder <> LOCAL_PROCESSED -> d' !! folder = disk w !! folder).
Proof.
  intros fd d'. subst d'. change (moves_keep fd (disk w)
                                    (disk (organize_outputs env w).2)).
  destruct (final_dir_not_source (timestamp env)) as (Ng & Np & _).
  fold fd in Ng, Np.
  unfold organize_outputs. fold fd.
  pose proof (makedirs_keeps fd LOCAL_PROCESSED w ltac:(right; reflexivity)) as H1.
  unfold bind at 1.
  destruct (makedirs LOCAL_PROCESSED w) as [[[]|e|] w1]; simpl in H1;
    [|exact H1..].
  pose proof (makedirs_keeps fd fd w1 ltac:(left; reflexivity)) as H2.
  unfold bind at 1.
  destruct (makedirs fd w1) as [[[]|e|] w2]; simpl in H2;
    [|eapply moves_keep_trans; [exact H1 | exact H2]..].
  assert (H12 : moves_keep fd (disk w) (disk w2))
    by (eapply moves_keep_trans; [exact H1 | exact H2]).
  unfold move_files. simpl.
  pose proof (move_folder_keeps env LOCAL_EXPORTS fd ltac:(left; reflexivity)
                Ng w2) as H3.
  unfold bind at 1. unfold bind at 1.
  destruct (move_folder env fd LOCAL_EXPORTS w2) as [[[]|e|] w3]; simpl in H3;
    [|eapply moves_keep_trans; [exact H12 | exact H3]..].
  pose proof (move_folder_keeps env PLOTS fd ltac:(right; reflexivity)
                Np w3) as H4.
  unfold bind at 1.
  destruct (move_folder env fd PLOTS w3) as [[[]|e|] w4]; simpl in H4 |- *;
    (eapply moves_keep_trans; [exact H12|];
     eapply moves_keep_trans; [exact H3 | exact H4]).
Qed.

(** On [blocked_disk] with one export staged the move fails, and the
    export is still in the staging directory. *)
Example failed_archive_keeps_the_export :
  let env := sample_env single_drive (fun _ => 0%N) never_refuse in
  let w := init_world 0 (<[LOCAL_EXPORTS := {[ "a.tif" := File "export a" ]}]>
                           blocked_disk) in
  let r := organize_outputs env w in
  r.1 = Raise (RenameError EISDIR (entry LOCAL_EXPORTS "a.tif")
                 (entry (final_dir_of "20251004_1530") "a.tif")) /\
  lookup_path (disk r.2) (entry LOCAL_EXPORTS "a.tif") = Some (File "export a").
Proof. vm_compute. repeat split. Qed.

Lemma subprocess_run_Ok script child w w1 :
  subprocess_run script child w = (Ok tt, w1) ->
  (child (disk w)).1 = true /\ disk w1 = (child (disk w)).2.
Proof.
  unfold subprocess_run. destruct (child (disk w)).1; [|discriminate].
  intros [= <-]. auto.
Qed.

(** X14.  On a Drive whose titles are plain file names: after a run
    that succeeds, provided the processing script removes nothing from
    the staging directory, every entry of the listing the poll returned
    has an entry of its title in the run directory, and the staging
    directory is left empty (so that a later run downloads everything
    again). *)
Theorem successful_run_archives_the_listing env tm fuel t0 d0 w' :
  run_pipeline env tm fuel (init_world t0 d0) = (Ok tt, w') ->
  (forall q it, it ∈ drive_at env q -> plain_title (title it) = true) ->
  (forall d name,
     is_Some (lookup_path d (entry LOCAL_EXPORTS name)) ->
     is_Some (lookup_path (process_script env d).2 (entry LOCAL_EXPORTS name))) ->
  exists files,
    listing env (queries w' - 2) = Some files /\
    plain_titles files /\
    (forall f, f ∈ files ->
       is_Some (lookup_path (disk w')
                  (entry (final_dir_of (timestamp env)) (title f)))) /\
    disk w' !! LOCAL_EXPORTS = Some ∅.
Proof.
  intros H Hplain Hproc. unfold run_pipeline in H.
  apply bind_Ok_inv in H as ([] & w1 & _ & H).
  apply bind_Ok_inv in H as ([] & w2 & _ & H).
  apply bind_Ok_inv in H as (files & w3 & Hwait & H).
  rewrite wait_for_exports_unfold in Hwait.
  destruct (poll_loop env tm fuel (clock w2) w2) as [[[found|]|e|] wp] eqn:Ep;
    try discriminate.
  injection Hwait as -> ->.
  destruct (poll_loop_Some_inv env tm fuel _ _ _ _ Ep) as (Hne & _ & Hl).
  destruct (steps_3_to_6_no_query env files w3) as (Hsame & _).
  rewrite H in Hsame. simpl in Hsame.
  unfold steps_3_to_6 in H.
  apply bind_Ok_inv in H as ([] & w4 & Hdl & H).
  apply bind_Ok_inv in H as ([] & w5 & Hrun & H).
  apply bind_Ok_inv in H as (out & w6 & Horg & H).
  pose proof (organize_outputs_result env w5 out w6 Horg) as ->.
  unfold write_summary in H. simpl in H.
  apply write_file_Ok in H as (Hdir & Hdisk & _ & _).
  set (fd := final_dir_of (timestamp env)) in *.
  unfold download_files in Hdl.
  apply bind_Ok_inv in Hdl as ([] & wm & _ & Hloop).
  destruct (fetch_loop_Ok files wm w4 Hloop) as (Hall & _).
  apply subprocess_run_Ok in Hrun as (_ & Hd5).
  assert (Hstaged : forall f, f ∈ files ->
            is_Some (lookup_path (disk w5) (entry LOCAL_EXPORTS (title f)))).
  { intros f Hf. rewrite Hd5. apply Hproc, Hall, Hf. }
  destruct (organize_outputs_Ok env w5 _ w6 Horg) as (_ & Hg & _).
  destruct (final_dir_not_source (timestamp env)) as (Ng & _ & _).
  fold fd in Ng.
  exists files. rewrite Hsame. split; [exact Hl|]. split; [|split].
  - apply Forall_forall. intros f Hf.
    unfold listing in Hl.
    destruct (folder_query EXPORT_FOLDER (drive_at env (queries w3 - 2)))
      as [|folder rest]; [discriminate|].
    injection Hl as <-. unfold children_query in Hf.
    apply list_elem_of_filter in Hf as [_ Hf]. exact (Hplain _ _ Hf).
  - intros f Hf. rewrite Hdisk.
    destruct (decide (title f = SUMMARY_NAME)) as [Et|Et].
    + rewrite Et, lookup_path_place_eq by exact Hdir. eauto.
    + rewrite lookup_path_place_ne by (unfold entry; congruence).
      pose proof (organize_outputs_lookup env w5 _ w6 (title f) Horg) as Hlk.
      cbv zeta in Hlk. fold fd in Hlk. rewrite Hlk.
      destruct (Hstaged f Hf) as [n Hn]. rewrite Hn.
      destruct (lookup_path (disk w5) (entry PLOTS (title f))); eauto.
  - rewrite Hdisk. unfold place_entry, entry. simpl.
    rewrite lookup_alter_ne by congruence. rewrite Hg.
    destruct files as [|f files]; [congruence|].
    destruct (Hstaged f ltac:(left)) as [n Hn].
    unfold lookup_path, entry in Hn. simpl in Hn.
    destruct (disk w5 !! LOCAL_EXPORTS); [reflexivity | discriminate].
Qed.

Lemma late_drive_plain q it : it ∈ late_drive q -> plain_title (title it) = true.
Proof.
  unfold late_drive. destruct (q <? 2)%nat; intros H;
    repeat (apply elem_of_cons in H as [->|H]; [reflexivity|]);
    inversion H.
Qed.

Lemma successful_run_archives_the_listing_witness :
  let env := sample_env late_drive (fun _ => 1%N) never_refuse in
  let w' := (run_pipeline env source_timing 24 (init_world 0 staged_disk)).2 in
  exists files,
    listing env (queries w' - 2) = Some files /\
    plain_titles files /\
    (forall f, f ∈ files ->
       is_Some (lookup_path (disk w')
                  (entry (final_dir_of (timestamp env)) (title f)))) /\
    disk w' !! LOCAL_EXPORTS = Some ∅.
Proof.
  intros env w'.
  apply (successful_run_archives_the_listing env source_timing 24 0%Z
           staged_disk w').
  - vm_compute. reflexivity.
  - exact late_drive_plain.
  - intros d name H. exact H.
Defined.

(** X15.  An entry named [SUMMARY.txt] in a source directory does not
    survive a run: when steps 5 and 6 complete, it is gone from its
    source directory and the [SUMMARY.txt] of the run directory is the
    summary of the run, written over whatever was moved there. *)
Theorem moved_summary_is_overwritten env files w w' folder n :
  folder ∈ [LOCAL_EXPORTS; PLOTS] ->
  lookup_path (disk w) (entry folder SUMMARY_NAME) = Some n ->
  steps_5_and_6 env files w = (Ok tt, w') ->
  lookup_path (disk w') (entry (final_dir_of (timestamp env)) SUMMARY_NAME)
    = Some (File (summary_text (timestamp env) (length files))) /\
  lookup_path (disk w') (entry folder SUMMARY_NAME) = None.
Proof.
  intros Hin Hn H. unfold steps_5_and_6 in H.
  apply bind_Ok_inv in H as (out & w5 & Horg & H).
  pose proof (organize_outputs_result env w out w5 Horg) as ->.
  unfold write_summary in H. simpl in H.
  apply write_file_Ok in H as (Hdir & Hdisk & _ & _).
  destruct (organize_outputs_Ok env w _ w5 Horg) as (_ & Hg & Hp).
  destruct (final_dir_not_source (timestamp env)) as (Ng & Np & _).
  rewrite Hdisk. split; [apply lookup_path_place_eq; exact Hdir|].
  rewrite lookup_path_place_ne.
  - rewrite lookup_path_entry.
    apply elem_of_cons in Hin as [->|Hin].
    + rewrite Hg. destruct (disk w !! LOCAL_EXPORTS); simpl; apply lookup_empty.
    + apply list_elem_of_singleton in Hin as ->.
      rewrite Hp. destruct (disk w !! PLOTS); simpl; apply lookup_empty.
  - unfold entry. intros [= E].
    apply elem_of_cons in Hin as [->|Hin]; [congruence|].
    apply list_elem_of_singleton in Hin as ->. congruence.
Qed.

Lemma moved_summary_is_overwritten_witness :
  let env := sample_env single_drive (fun _ => 0%N) never_refuse in
  let files := [sample_file "a.tif"] in
  let w := init_world 0 summary_file_disk in
  let w' := (steps_5_and_6 env files w).2 in
  lookup_path (disk w') (entry (final_dir_of (timestamp env)) SUMMARY_NAME)
    = Some (File (summary_text (timestamp env) (length files))) /\
  lookup_path (disk w') (entry PLOTS SUMMARY_NAME) = None.
Proof.
  intros env files w w'.
  apply (moved_summary_is_overwritten env files w w' PLOTS
           (File "notes of the plotting step")).
  - right. left.
  - reflexivity.
  - vm_compute. reflexivity.
Defined.

(** X16.  When the plots directory holds a directory named
    [SUMMARY.txt] and the moves of step 5 complete, step 6 fails on
    opening the summary file ([OpenError] with [EISDIR], Python's
    IsADirectoryError): the run ends without a summary, with the moved
    entries in the run directory as step 5 left them. *)
Theorem summary_blocked_by_a_directory env files w out w5 items :
  lookup_path (disk w) (entry PLOTS SUMMARY_NAME) = Some (Folder items) ->
  organize_outputs env w = (Ok out, w5) ->
  exists w6,
    steps_5_and_6 env files w =
      (Raise (OpenError EISDIR
                (entry (final_dir_of (timestamp env)) SUMMARY_NAME)), w6) /\
    disk w6 = disk w5 /\
    lookup_path (disk w6) (entry (final_dir_of (timestamp env)) SUMMARY_NAME)
      = Some (Folder items).
Proof.
  intros Hn Horg.
  pose proof (organize_outputs_result env w out w5 Horg) as ->.
  pose proof (organize_outputs_lookup env w _ w5 SUMMARY_NAME Horg) as Hlk.
  cbv zeta in Hlk. rewrite Hn in Hlk.
  unfold steps_5_and_6. rewrite (bind_Ok_step _ _ _ _ _ Horg).
  unfold write_summary, write_file. simpl.
  unfold lookup_path, entry in Hlk. simpl in Hlk.
  destruct (disk w5 !! final_dir_of (timestamp env)) as [dir|] eqn:Ed;
    [|discriminate].
  rewrite Hlk. eexists. split; [reflexivity|]. simpl.
  split; [reflexivity|]. unfold lookup_path, entry. simpl. rewrite Ed. exact Hlk.
Qed.

Lemma summary_blocked_by_a_directory_witness :
  let env := sample_env single_drive (fun _ => 0%N) never_refuse in
  let files := [sample_file "a.tif"] in
  let w := init_world 0 summary_folder_disk in
  let w5 := (organize_outputs env w).2 in
  exists w6,
    steps_5_and_6 env files w =
      (Raise (OpenError EISDIR
                (entry (final_dir_of (timestamp env)) SUMMARY_NAME)), w6) /\
    disk w6 = disk w5 /\
    lookup_path (disk w6) (entry (final_dir_of (timestamp env)) SUMMARY_NAME)
      = Some (Folder ["page_1.png"]).
Proof.
  intros env files w w5.
  apply (summary_blocked_by_a_directory env files w
           (final_dir_of (timestamp env), timestamp env) w5 ["page_1.png"]).
  - reflexivity.
  - vm_compute. reflexivity.
Defined.

(** ** Step 2: how the polling step can end, and what it costs *)

Lemma poll_loop_accounts env tm fuel : forall start w o w',
  (0 <= WAIT_TIME tm)%Z ->
  poll_loop env tm fuel start w = (o, w') ->
  exists tr,
    trace w' = trace w ++ tr /\
    queries w' = queries w + remote_queries tr /\
    match o with
    | Ok (Some files) =>
        files <> [] /\
        remote_queries tr = 2 * poll_attempts tr /\
        S (sleeps tr) = poll_attempts tr
    | Ok None =>
        (MAX_WAIT tm <= clock w' - start)%Z /\
        remote_queries tr = 2 * poll_attempts tr /\
        sleeps tr = poll_attempts tr
    | Raise e =>
        e = FolderNotFound EXPORT_FOLDER /\
        S (remote_queries tr) = 2 * poll_attempts tr /\
        S (sleeps tr) = poll_attempts tr
    | OutOfFuel =>
        remote_queries tr = 2 * poll_attempts tr /\
        sleeps tr = poll_attempts tr
    end.
Proof.
  induction fuel as [|fuel IH]; intros start w o w' Hs H;
    rewrite poll_loop_unfold in H;
    destruct (Z.ltb_spec (clock w - start) (MAX_WAIT tm)) as [Hin|Hout].
  - injection H as <- <-. exists []. rewrite app_nil_r. cbn. auto with lia.
  - injection H as <- <-. exists []. rewrite app_nil_r. cbn.
    repeat split; lia.
  - unfold bind at 1 in H.
    destruct (folder_query EXPORT_FOLDER (drive_at env (queries w)))
      as [|folder rest] eqn:Eq.
    { rewrite (list_drive_files_missing env w Eq) in H. injection H as <- <-.
      exists [EvFolderQuery EXPORT_FOLDER]. simpl. cbn.
      repeat split; lia. }
    rewrite (list_drive_files_found env w folder rest Eq) in H.
    destruct (children_query (item_id folder) (drive_at env (S (queries w))))
      as [|f files].
    2: { injection H as <- <-.
         exists [EvFolderQuery EXPORT_FOLDER; EvChildrenQuery (item_id folder)].
         simpl. cbn. repeat split; (lia || discriminate). }
    unfold bind at 1, time_sleep in H.
    destruct (Z.ltb_spec (WAIT_TIME tm) 0) as [Hneg|Hpos]; [lia|].
    apply (IH _ _ _ _ Hs) in H as (tr & Ht & Hq & Hres).
    simpl in Ht, Hq.
    exists ([EvFolderQuery EXPORT_FOLDER; EvChildrenQuery (item_id folder);
             EvSleep (WAIT_TIME tm)] ++ tr).
    split; [rewrite Ht, <- !app_assoc; reflexivity|].
    unfold remote_queries, poll_attempts, sleeps in *.
    rewrite !count_app.
    change (count is_query
              [EvFolderQuery EXPORT_FOLDER; EvChildrenQuery (item_id folder);
               EvSleep (WAIT_TIME tm)]) with 2.
    change (count is_folder_query
              [EvFolderQuery EXPORT_FOLDER; EvChildrenQuery (item_id folder);
               EvSleep (WAIT_TIME tm)]) with 1.
    change (count is_sleep
              [EvFolderQuery EXPORT_FOLDER; EvChildrenQuery (item_id folder);
               EvSleep (WAIT_TIME tm)]) with 1.
    split; [lia|].
    destruct o as [[files|]|e|]; intuition lia.
  - injection H as <- <-. exists []. rewrite app_nil_r. cbn.
    repeat split; lia.
Qed.

(** X17.  What the polling step costs, for every sequence of answers
    of the Drive and a [WAIT_TIME] that is not negative: when it returns
    a listing, the listing is not empty, every attempt has made two
    Drive queries and there is one sleep between two attempts; when it
    raises [TimeoutError], at least [MAX_WAIT] seconds have gone by
    since the start, every attempt has made two queries and has been
    followed by a sleep; when it raises the folder-not-found exception,
    the last attempt has made one query only, and there is one sleep
    between two attempts. *)
Theorem polling_outcomes_and_cost env tm fuel w :
  (0 <= WAIT_TIME tm)%Z ->
  exists tr,
    trace (wait_for_exports env tm fuel w).2 = trace w ++ tr /\
    queries (wait_for_exports env tm fuel w).2 = queries w + remote_queries tr /\
    match (wait_for_exports env tm fuel w).1 with
    | Ok files =>
        files <> [] /\
        remote_queries tr = 2 * poll_attempts tr /\
        S (sleeps tr) = poll_attempts tr
    | Raise e =>
        (e = TimeoutError ->
         (MAX_WAIT tm <= clock (wait_for_exports env tm fuel w).2 - clock w)%Z /\
         remote_queries tr = 2 * poll_attempts tr /\
         sleeps tr = poll_attempts tr) /\
        (e = FolderNotFound EXPORT_FOLDER ->
         S (remote_queries tr) = 2 * poll_attempts tr /\
         S (sleeps tr) = poll_attempts tr)
    | OutOfFuel => True
    end.
Proof.
  intros Hs. rewrite wait_for_exports_unfold.
  destruct (poll_loop env tm fuel (clock w) w) as [o w'] eqn:E.
  destruct (poll_loop_accounts env tm fuel (clock w) w o w' Hs E)
    as (tr & Ht & Hq & Hres).
  exists tr. destruct o as [[files|]|e|]; simpl; auto.
  - split; [exact Ht|]. split; [exact Hq|]. split; [auto | discriminate].
  - destruct Hres as (-> & Hres). split; [exact Ht|]. split; [exact Hq|].
    split; [discriminate | auto].
Qed.

Lemma polling_outcomes_and_cost_witness :
  let env := sample_env vanishing_drive (fun _ => 7%N) never_refuse in
  let w := init_world 0 ∅ in
  (wait_for_exports env source_timing 24 w).1 = Raise (FolderNotFound EXPORT_FOLDER) /\
  exists tr,
    trace (wait_for_exports env source_timing 24 w).2 = trace w ++ tr /\
    queries (wait_for_exports env source_timing 24 w).2
      = queries w + remote_queries tr /\
    match (wait_for_exports env source_timing 24 w).1 with
    | Ok files =>
        files <> [] /\
        remote_queries tr = 2 * poll_attempts tr /\
        S (sleeps tr) = poll_attempts tr
    | Raise e =>
        (e = TimeoutError ->
         (MAX_WAIT source_timing
          <= clock (wait_for_exports env source_timing 24 w).2 - clock w)%Z /\
         remote_queries tr = 2 * poll_attempts tr /\
         sleeps tr = poll_attempts tr) /\
        (e = FolderNotFound EXPORT_FOLDER ->
         S (remote_queries tr) = 2 * poll_attempts tr /\
         S (sleeps tr) = poll_attempts tr)
    | OutOfFuel => True
    end.
Proof.
  intros env w. split; [vm_compute; reflexivity|].
  apply (polling_outcomes_and_cost env source_timing 24 w).
  vm_compute. discriminate.
Defined.
